(** * LM Studio vision proxy: image normalizer, message composer, upstream relay

    A shallow embedding of [lmstudio_vision_proxy.py].  Python values that
    come out of a JSON body are modelled by the type [json]; a Python [str]
    is a sequence of Unicode code points; a Python exception is an explicit
    [Raise] result. *)

From Stdlib Require Import ZArith NArith String Ascii Strings.Byte Lia.
From stdpp Require Import base tactics option list gmap.

Set Warnings "-register-all,-clear-no-such-hyp".
Open Scope Z_scope.

(** ** Python strings *)

(** A [str] is a sequence of code points. *)
Abbreviation str := (list N).
Abbreviation bytes := (list byte).

(** A string literal of the source. *)
Fixpoint py (s : string) : str :=
  match s with
  | EmptyString => []
  | String a r => N_of_ascii a :: py r
  end.

Arguments py : simpl never.

(** [s.startswith(prefix)] *)
Fixpoint startswith (s prefix : str) {struct prefix} : bool :=
  match prefix, s with
  | [], _ => true
  | p :: ps, c :: cs => (p =? c)%N && startswith cs ps
  | _ :: _, [] => false
  end.

(** [sub in s] *)
Fixpoint contains (sub s : str) : bool :=
  startswith s sub ||
  match s with
  | [] => false
  | _ :: cs => contains sub cs
  end.

(** The code points Python's [str.strip()] removes (those for which
    [str.isspace] holds). *)
Definition isspace (c : N) : bool :=
  ((9 <=? c) && (c <=? 13) || (28 <=? c) && (c <=? 32)
   || (c =? 133) || (c =? 160) || (c =? 5760)
   || (8192 <=? c) && (c <=? 8202)
   || (c =? 8232) || (c =? 8233) || (c =? 8239) || (c =? 8287)
   || (c =? 12288))%N.

Fixpoint lstrip (s : str) : str :=
  match s with
  | [] => []
  | c :: cs => if isspace c then lstrip cs else s
  end.

Definition rstrip (s : str) : str := reverse (lstrip (reverse s)).

(** [s.strip()] *)
Definition strip (s : str) : str := rstrip (lstrip s).

(** ** Values decoded from JSON *)

(** The floats that are not finite: [inf], [-inf] and [nan].  Python's
    decoder gives them for [Infinity], [-Infinity], [NaN] and for a number
    too large for a float, such as [1e400]. *)
Inductive nonfinite : Type :=
  | PosInf
  | NegInf
  | NaN.

(** The values Python decodes from JSON: [None], [bool], [int], [float],
    [str], [list] and [dict].  [JFloat m e] is the finite float [m * 2^e],
    [JNonFinite f] a float that is not finite. *)
Inductive json : Type :=
  | JNull
  | JBool (b : bool)
  | JInt (n : Z)
  | JFloat (m e : Z)
  | JNonFinite (f : nonfinite)
  | JStr (s : str)
  | JList (items : list json)
  | JDict (fields : list (str * json)).

(** A Python [dict] with string keys, in insertion order. *)
Abbreviation dict := (list (str * json)).

(** Truth value of a Python object ([bool(v)], [if v], [v or w]). *)
Definition truthy (v : json) : bool :=
  match v with
  | JNull => false
  | JBool b => b
  | JInt n => negb (n =? 0)
  | JFloat m _ => negb (m =? 0)
  | JNonFinite _ => true
  | JStr s => negb (bool_decide (s = []))
  | JList l => match l with [] => false | _ => true end
  | JDict d => match d with [] => false | _ => true end
  end.

(** [v == s] for a string [s] *)
Definition py_eq_str (v : json) (s : str) : bool :=
  match v with
  | JStr t => bool_decide (t = s)
  | _ => false
  end.

(** [a or b] *)
Definition py_or (a b : json) : json := if truthy a then a else b.

(** The value stored under [k], if any. *)
Fixpoint dict_lookup (k : str) (d : dict) : option json :=
  match d with
  | [] => None
  | (k', v) :: rest => if bool_decide (k' = k) then Some v else dict_lookup k rest
  end.

(** [d.get(k, default)] *)
Definition dict_get (d : dict) (k : str) (dflt : json) : json :=
  default dflt (dict_lookup k d).

(** [d[k] = v]: an existing key keeps its place, a new one goes last. *)
Fixpoint dict_set (d : dict) (k : str) (v : json) : dict :=
  match d with
  | [] => [(k, v)]
  | (k', v') :: rest =>
      if bool_decide (k' = k) then (k', v) :: rest else (k', v') :: dict_set rest k v
  end.

(** [d.setdefault(k, v)] *)
Definition dict_setdefault (d : dict) (k : str) (v : json) : dict :=
  match dict_lookup k d with
  | Some _ => d
  | None => d ++ [(k, v)]
  end.

(** ** Exceptions *)

Inductive exc : Type :=
  | TypeError
  | AttributeError
  | KeyError
  | IndexError
  | ValueError
  | UnicodeEncodeError.

(** The outcome of a call that may raise an exception of type [E]. *)
Inductive outcome (E A : Type) : Type :=
  | Ok (a : A)
  | Raise (e : E).
Arguments Ok {E A} a.
Arguments Raise {E A} e.

Global Instance outcome_ret {E} : MRet (outcome E) := fun A a => Ok a.
Global Instance outcome_bind {E} : MBind (outcome E) := fun A B f m =>
  match m with
  | Ok a => f a
  | Raise e => Raise e
  end.

Abbreviation result := (outcome exc).

(** ** Operations of the Python object model on decoded JSON *)

(** [len(v)] *)
Definition py_len (v : json) : result nat :=
  match v with
  | JStr s => Ok (length s)
  | JList l => Ok (length l)
  | JDict d => Ok (length d)
  | _ => Raise TypeError
  end.

(** [list(v)], also the sequence [for x in v] runs over: a string yields
    its characters, a dict its keys. *)
Definition py_list (v : json) : result (list json) :=
  match v with
  | JStr s => Ok ((fun c => JStr [c]) <$> s)
  | JList l => Ok l
  | JDict d => Ok ((fun kv => JStr kv.1) <$> d)
  | _ => Raise TypeError
  end.

(** [v[i]] for an index [i] within [range(len(v))] *)
Definition py_getitem (v : json) (i : nat) : result json :=
  match v with
  | JStr s => match s !! i with Some c => Ok (JStr [c]) | None => Raise IndexError end
  | JList l => match l !! i with Some x => Ok x | None => Raise IndexError end
  | JDict _ => Raise KeyError
  | _ => Raise TypeError
  end.

(** [v.get(k)] *)
Definition py_get (v : json) (k : str) : result json :=
  match v with
  | JDict d => Ok (dict_get d k JNull)
  | _ => Raise AttributeError
  end.

(** [dict(v)] of a dict *)
Definition py_dict (v : json) : result dict :=
  match v with
  | JDict d => Ok d
  | _ => Raise TypeError
  end.

(** ** Image normalizer *)

Definition looks_data_url (s : json) : bool :=
  match s with
  | JStr s => startswith s (py "data:") && contains (py ";base64,") s
  | _ => false
  end.

Definition is_http_url (s : json) : bool :=
  match s with
  | JStr s => startswith s (py "http://") || startswith s (py "https://")
  | _ => false
  end.

Definition to_data_url_from_base64 (raw_b64 : str) (mime : str) : str :=
  py "data:" ++ mime ++ py ";base64," ++ raw_b64.

(** Default of the [mime] argument. *)
Definition default_mime : str := py "image/png".

(** Body of the first loop: what one descriptor [x] does to [urls]. *)
Definition collect_url (urls : list str) (x : json) : list str :=
  match x with
  | JDict d =>
      match dict_get d (py "data") (JStr []) with
      | JStr data =>
          if truthy (JStr data) then
            let url := if looks_data_url (JStr data) then data
                       else to_data_url_from_base64 data default_mime in
            urls ++ [url]
          else urls
      | _ => urls
      end
  | JStr x =>
      if looks_data_url (JStr x) || is_http_url (JStr x) then urls ++ [x]
      else urls ++ [to_data_url_from_base64 x default_mime]
  | _ => urls
  end.

(** The candidate list [urls] after the first loop. *)
Definition candidate_urls (xs : list json) : list str := foldl collect_url [] xs.

(** Body of the second loop, on the pair [(seen, uniq)]. *)
Definition dedupe_step (st : gset str * list str) (u : str) : gset str * list str :=
  if bool_decide (u ∈ st.1) then st else ({[u]} ∪ st.1, st.2 ++ [u]).

Definition dedupe (urls : list str) : list str := (foldl dedupe_step (∅, []) urls).2.

Definition prepare_image_urls (images_in : json) : result (list str) :=
  xs ← py_list (py_or images_in (JList []));
  mret (dedupe (candidate_urls xs)).

(** The URL a plain-string descriptor stands for. *)
Definition string_url (x : str) : str :=
  if looks_data_url (JStr x) || is_http_url (JStr x) then x
  else py "data:image/png;base64," ++ x.

(** A string already in data-URL form (it starts with [data:] and contains
    [;base64,]) or in http(s) form. *)
Definition url_form (s : str) : Prop :=
  (py "data:" `prefix_of` s /\ exists a b : str, s = a ++ py ";base64," ++ b)
  \/ py "http://" `prefix_of` s \/ py "https://" `prefix_of` s.

(** ** Message composer *)

(** [{"type": "image_url", "image_url": {"url": url}}] *)
Definition image_block (url : str) : json :=
  JDict [(py "type", JStr (py "image_url"));
         (py "image_url", JDict [(py "url", JStr url)])].

(** [{"type": "text", "text": content}] *)
Definition text_block (content : str) : json :=
  JDict [(py "type", JStr (py "text")); (py "text", JStr content)].

(** The scan [for i in range(len(messages) - 1, -1, -1)], with [n] indices
    left to visit: the index of the last message whose role is ["user"]. *)
Fixpoint find_last_user (messages : json) (n : nat) : result (option nat) :=
  match n with
  | O => Ok None
  | S i =>
      m ← py_getitem messages i;
      role ← py_get m (py "role");
      if py_eq_str role (py "user") then Ok (Some i)
      else find_last_user messages i
  end.

(** The new value of [user_msg["content"]]. *)
Definition merged_content (content : json) (img_blocks : list json) : json :=
  match content with
  | JStr content =>
      let content_blocks := [] in
      let content_blocks :=
        if truthy (JStr (strip content)) then content_blocks ++ [text_block content]
        else content_blocks in
      JList (content_blocks ++ img_blocks)
  | JList content => JList (content ++ img_blocks)
  | _ => JList img_blocks
  end.

Definition ensure_multimodal_message (messages : json) (image_urls : list str)
  : result json :=
  if bool_decide (image_urls = []) then Ok messages else
  n ← py_len messages;
  user_idx ← find_last_user messages n;
  let img_blocks := image_block <$> image_urls in
  match user_idx with
  | None =>
      l ← py_list messages;
      Ok (JList (l ++ [JDict [(py "role", JStr (py "user"));
                               (py "content", JList img_blocks)]]))
  | Some user_idx =>
      m ← py_getitem messages user_idx;
      user_msg ← py_dict m;
      let content := dict_get user_msg (py "content") (JStr []) in
      let user_msg := dict_set user_msg (py "content") (merged_content content img_blocks) in
      l ← py_list messages;
      Ok (JList (<[user_idx := JDict user_msg]> l))
  end.

(** A chat message is a JSON object. *)
Definition is_message (m : json) : bool :=
  match m with
  | JDict _ => true
  | _ => false
  end.

(** The message has role [user]. *)
Definition has_role_user (m : json) : bool :=
  match m with
  | JDict d => py_eq_str (dict_get d (py "role") JNull) (py "user")
  | _ => false
  end.

(** A message whose role is not [user]. *)
Definition other_message (m : json) : Prop :=
  is_message m = true /\ has_role_user m = false.

(** ** Upstream relay *)

(** What [r.json()] gives: the decoded body, or a decoding error with its
    message. *)
Inductive decoded : Type :=
  | Decoded (j : json)
  | DecodeError (msg : str).

(** The upstream's HTTP response as the handler reads it.  [http_error_msg]
    is the text of the [HTTPError] that [raise_for_status] builds;
    [content_type] is [r.headers.get("Content-Type")]; [iter_content] is the
    sequence of chunks [r.iter_content(chunk_size=None)] delivers. *)
Record Response : Type := {
  status_code : Z;
  http_error_msg : str;
  content_type : option str;
  json_body : decoded;
  iter_content : list bytes
}.

(** Exceptions inside the [try] block, by the handler that catches them,
    each with its message [str(e)]. *)
Inductive raised : Type :=
  | HTTPError (response : option Response) (msg : str)
  | OtherException (msg : str).

(** What the endpoint hands back to the framework: a [JSONResponse] or a
    [StreamingResponse] with its status code (200 unless [status_code] is
    given), or an exception that leaves the handler.  A [JSONResponse] is
    built by [json_response] below, which renders the content first. *)
Inductive reply : Type :=
  | JSONResponse (status : Z) (content : json)
  | StreamingResponse (status : Z) (media_type : str) (content : list bytes)
  | Unhandled (e : exc).

(** The status line of a reply, if there is one. *)
Definition reply_status (rep : reply) : option Z :=
  match rep with
  | JSONResponse status _ => Some status
  | StreamingResponse status _ _ => Some status
  | Unhandled _ => None
  end.

Definition raise_for_status (r : Response) : outcome raised unit :=
  if (400 <=? status_code r) && (status_code r <? 600)
  then Raise (HTTPError (Some r) (http_error_msg r))
  else Ok ().

Definition response_json (r : Response) : outcome raised json :=
  match json_body r with
  | Decoded j => Ok j
  | DecodeError msg => Raise (OtherException msg)
  end.

(** The generator [gen()] run to exhaustion over the chunks of an upstream
    stream that ends. *)
Fixpoint gen (chunks : list bytes) : list bytes :=
  match chunks with
  | [] => []
  | chunk :: rest =>
      match chunk with
      | [] => gen rest
      | _ :: _ => chunk :: gen rest
      end
  end.

(** [{"error": {"message": msg}}] *)
Definition error_body (msg : str) : json :=
  JDict [(py "error", JDict [(py "message", JStr msg)])].

Definition event_stream : str := py "text/event-stream".

(** *** Rendering a JSON response

    [JSONResponse(content=..., status_code=...)] renders its body when it is
    constructed:
    [json.dumps(content, ensure_ascii=False, allow_nan=False, ...).encode("utf-8")].
    [json.dumps] raises [ValueError] on a float that is not finite, and the
    encoding raises [UnicodeEncodeError] on a surrogate code point, in a
    string or in a key. *)

(** A surrogate code point, U+D800 to U+DFFF. *)
Definition is_surrogate (c : N) : bool := ((55296 <=? c) && (c <=? 57343))%N.

(** [s.encode("utf-8")] succeeds. *)
Definition encodable (s : str) : bool := forallb (fun c => negb (is_surrogate c)) s.

(** Some float of [j] is not finite. *)
Fixpoint has_nonfinite (j : json) : bool :=
  match j with
  | JNonFinite _ => true
  | JList items => existsb has_nonfinite items
  | JDict fields => existsb (fun kv => has_nonfinite kv.2) fields
  | _ => false
  end.

(** Some string or key of [j] holds a surrogate. *)
Fixpoint has_surrogate (j : json) : bool :=
  match j with
  | JStr s => negb (encodable s)
  | JList items => existsb has_surrogate items
  | JDict fields => existsb (fun kv => negb (encodable kv.1) || has_surrogate kv.2) fields
  | _ => false
  end.

(** [JSONResponse.render(content)]: [json.dumps] runs to its end before the
    result is encoded. *)
Definition render (content : json) : result unit :=
  if has_nonfinite content then Raise ValueError
  else if has_surrogate content then Raise UnicodeEncodeError
  else Ok ().

(** [JSONResponse(status_code=status, content=content)] *)
Definition json_response (status : Z) (content : json) : result reply :=
  _ ← render content;
  mret (JSONResponse status content).

(** A call inside a [try] whose exception the clause [except Exception as e]
    catches, [msg] being [str(e)]. *)
Definition caught {A} (msg : str) (m : result A) : outcome raised A :=
  match m with
  | Ok a => Ok a
  | Raise _ => Raise (OtherException msg)
  end.

(** A [return] inside an [except] clause: what it raises leaves the
    handler. *)
Definition escaping (m : result reply) : reply :=
  match m with
  | Ok rep => rep
  | Raise e => Unhandled e
  end.

Section Relay.
(** [s.post(url, json=payload, stream=..., timeout=TIMEOUT)] *)
Variable post : dict -> bool -> outcome raised Response.
(** [uuid.uuid4().hex] *)
Variable uuid4_hex : str.
(** [str(e)] for the exception [e] that rendering a content raises. *)
Variable render_error_message : json -> str.

Definition want_stream (body : dict) : bool :=
  truthy (dict_get body (py "stream") (JBool false)).

Definition messages_of (body : dict) : json :=
  py_or (dict_get body (py "messages") JNull) (JList []).

Definition images_in (body : dict) : json :=
  py_or (py_or (dict_get body (py "images") JNull)
               (dict_get body (py "allImages") JNull))
        (JList []).

(** Lines 130-131: the composed message sequence. *)
Definition messages_mm (body : dict) : result json :=
  image_urls ← prepare_image_urls (images_in body);
  ensure_multimodal_message (messages_of body) image_urls.

(** Lines 133-134: the payload sent upstream, a copy of [body] with its
    messages replaced. *)
Definition upstream_payload (body : dict) : result dict :=
  messages_mm ← messages_mm body;
  mret (dict_set body (py "messages") messages_mm).

(** Ensure id/model fields exist. *)
Definition fill_id_model (body : dict) (j : json) : json :=
  match j with
  | JDict j =>
      let j := dict_setdefault j (py "id") (JStr (py "chatcmpl-" ++ take 24 uuid4_hex)) in
      let j := dict_setdefault j (py "model")
                 (py_or (dict_get body (py "model") JNull) (JStr (py "local"))) in
      JDict j
  | _ => j
  end.

(** The body of the [try] block. *)
Definition relay (body payload : dict) : outcome raised reply :=
  if want_stream body then
    r ← post payload true;
    _ ← raise_for_status r;
    let media_type := default event_stream (content_type r) in
    mret (StreamingResponse 200
            (if truthy (JStr media_type) then media_type else event_stream)
            (gen (iter_content r)))
  else
    r ← post payload false;
    _ ← raise_for_status r;
    j ← response_json r;
    let j := fill_id_model body j in
    caught (render_error_message j) (json_response 200 j).

(** [except requests.HTTPError as e] *)
Definition on_http_error (response : option Response) (msg : str) : reply :=
  let status := match response with Some r => status_code r | None => 502 end in
  let err :=
    match response with
    | Some r =>
        match json_body r with
        | Decoded j => j
        | DecodeError _ => error_body msg
        end
    | None => error_body msg
    end in
  escaping (json_response status err).

Definition chat_completions (body : dict) : reply :=
  match upstream_payload body with
  | Raise e => Unhandled e
  | Ok payload =>
      match relay body payload with
      | Ok rep => rep
      | Raise (HTTPError response msg) => on_http_error response msg
      | Raise (OtherException msg) => escaping (json_response 502 (error_body msg))
      end
  end.
End Relay.

(** ** Configuration, session and model listing *)

(** [s.lstrip(chars)]: leading characters that occur in [chars] go. *)
Fixpoint lstrip_chars (chars s : str) : str :=
  match s with
  | [] => []
  | c :: cs => if bool_decide (c ∈ chars) then lstrip_chars chars cs else s
  end.

(** [s.rstrip(chars)] *)
Definition rstrip_chars (chars s : str) : str :=
  reverse (lstrip_chars chars (reverse s)).

(** [os.getenv("LMSTUDIO_API_BASE", "http://localhost:1234/v1").rstrip("/")],
    for the value [env] of the variable, if it is set. *)
Definition LMSTUDIO_API_BASE (env : option str) : str :=
  rstrip_chars (py "/") (default (py "http://localhost:1234/v1") env).

(** [os.getenv("LMSTUDIO_API_KEY", "").strip()] *)
Definition LMSTUDIO_API_KEY (env : option str) : str :=
  strip (default [] env).

(** [os.getenv("LMSTUDIO_PROXY_MODEL_NAME", "lmstudio-proxy")] *)
Definition MODEL_NAME (env : option str) : str :=
  default (py "lmstudio-proxy") env.

(** [f"{LMSTUDIO_API_BASE}/chat/completions"] *)
Definition chat_completions_url (api_base : str) : str :=
  api_base ++ py "/chat/completions".

(** The [headers] dict that [_session()] gives to the session. *)
Definition _session (api_key : str) : dict :=
  let headers :=
    [(py "Content-Type", JStr (py "application/json"));
     (py "Accept", JStr (py "application/json"));
     (py "User-Agent", JStr (py "LMStudio-Vision-Proxy/1.0"))] in
  if truthy (JStr api_key)
  then dict_set headers (py "Authorization") (JStr (py "Bearer " ++ api_key))
  else headers.

(** [str(e)] *)
Definition exception_message (e : raised) : str :=
  match e with
  | HTTPError _ msg => msg
  | OtherException msg => msg
  end.

(** The listing [list_models] falls back to. *)
Definition fallback_listing (model_name msg : str) : json :=
  JDict [(py "object", JStr (py "list"));
         (py "data", JList [JDict [(py "id", JStr model_name);
                                   (py "object", JStr (py "model"))]]);
         (py "note", JStr (py "fallback: " ++ msg))].

(** [list_models()], for the outcome [get_models] of
    [s.get(f"{LMSTUDIO_API_BASE}/models", timeout=30)] and the message
    [render_error_message j] of the exception that rendering [j] raises. *)
Definition list_models (get_models : outcome raised Response)
    (render_error_message : json -> str) (model_name : str) : reply :=
  match
    r ← get_models;
    _ ← raise_for_status r;
    j ← response_json r;
    caught (render_error_message j) (json_response 200 j)
  with
  | Ok rep => rep
  | Raise e =>
      escaping (json_response 200 (fallback_listing model_name (exception_message e)))
  end.

(** [health()] *)
Definition health (api_base model_name : str) : json :=
  JDict [(py "ok", JBool true); (py "upstream", JStr api_base);
         (py "model", JStr model_name)].

(** ** Shapes of descriptors and messages *)

(** The descriptor is a string or a dict, the shapes the normalizer reads. *)
Definition is_descriptor (x : json) : bool :=
  match x with
  | JStr _ | JDict _ => true
  | _ => false
  end.

(** A string in data-URL form: it starts with [data:] and contains
    [;base64,]. *)
Definition data_url_form (s : str) : Prop :=
  py "data:" `prefix_of` s /\ exists a b : str, s = a ++ py ";base64," ++ b.

(** A truthy value that cannot be iterated: a number other than zero, or
    [True]. *)
Definition truthy_scalar (v : json) : bool :=
  match v with
  | JBool b => b
  | JInt n => negb (n =? 0)
  | JFloat m _ => negb (m =? 0)
  | JNonFinite _ => true
  | _ => false
  end.

(** ** The message composer on a store of mutable objects

    Python lists and dicts are objects with identity: [dict(m)], [list(ms)],
    a list display and [a + b] allocate a new object, while [d[k] = v],
    [l[i] = v], [l.append(x)] and [l.extend(xs)] update an existing one in
    place.  This second model of [ensure_multimodal_message] keeps the
    objects in a store, so that what the function writes to can be stated. *)
Module Heap.

Abbreviation loc := nat.

(** Immutable values are held inline, lists and dicts by reference. *)
Inductive val : Type :=
  | VNone
  | VBool (b : bool)
  | VInt (n : Z)
  | VFloat (m e : Z)
  | VNonFinite (f : nonfinite)
  | VStr (s : str)
  | VRef (l : loc).

Inductive obj : Type :=
  | OList (items : list val)
  | ODict (fields : list (str * val)).

(** The store: the object at location [l] is the [l]-th entry. *)
Abbreviation heap := (list obj).

(** A computation reads and updates the store and may raise. *)
Definition M (A : Type) : Type := heap -> result (A * heap).

Global Instance M_ret : MRet M := fun A a h => Ok (a, h).
Global Instance M_bind : MBind M := fun A B f m h =>
  match m h with
  | Ok (a, h') => f a h'
  | Raise e => Raise e
  end.

Definition raise {A} (e : exc) : M A := fun _ => Raise e.

(** A new object, at the first unused location. *)
Definition alloc (o : obj) : M val := fun h => Ok (VRef (length h), h ++ [o]).

(** The object a value refers to, if any. *)
Definition deref (v : val) : M (option obj) := fun h =>
  match v with
  | VRef l => Ok (h !! l, h)
  | _ => Ok (None, h)
  end.

(** Overwrite the object at [l]. *)
Definition store (l : loc) (o : obj) : M unit := fun h => Ok ((), <[l := o]> h).

Fixpoint fields_lookup (k : str) (d : list (str * val)) : option val :=
  match d with
  | [] => None
  | (k', v) :: rest => if bool_decide (k' = k) then Some v else fields_lookup k rest
  end.

Fixpoint fields_set (d : list (str * val)) (k : str) (v : val) : list (str * val) :=
  match d with
  | [] => [(k, v)]
  | (k', v') :: rest =>
      if bool_decide (k' = k) then (k', v) :: rest else (k', v') :: fields_set rest k v
  end.

(** [len(v)] *)
Definition len (v : val) : M nat :=
  o ← deref v;
  match o, v with
  | Some (OList xs), _ => mret (length xs)
  | Some (ODict d), _ => mret (length d)
  | None, VStr s => mret (length s)
  | None, _ => raise TypeError
  end.

(** [v[i]] for an index [i] within [range(len(v))] *)
Definition getitem (v : val) (i : nat) : M val :=
  o ← deref v;
  match o, v with
  | Some (OList xs), _ =>
      match xs !! i with Some x => mret x | None => raise IndexError end
  | Some (ODict _), _ => raise KeyError
  | None, VStr s =>
      match s !! i with Some c => mret (VStr [c]) | None => raise IndexError end
  | None, _ => raise TypeError
  end.

(** [v.get(k, dflt)] *)
Definition get (v : val) (k : str) (dflt : val) : M val :=
  o ← deref v;
  match o with
  | Some (ODict d) => mret (default dflt (fields_lookup k d))
  | _ => raise AttributeError
  end.

(** [list(v)]: a new list object. *)
Definition list_ (v : val) : M val :=
  o ← deref v;
  match o, v with
  | Some (OList xs), _ => alloc (OList xs)
  | Some (ODict d), _ => alloc (OList ((fun kv => VStr kv.1) <$> d))
  | None, VStr s => alloc (OList ((fun c => VStr [c]) <$> s))
  | None, _ => raise TypeError
  end.

(** [dict(v)] of a dict: a new dict object with the same fields. *)
Definition dict_ (v : val) : M val :=
  o ← deref v;
  match o with
  | Some (ODict d) => alloc (ODict d)
  | _ => raise TypeError
  end.

(** [a + b] on lists: a new list object. *)
Definition concat (a b : val) : M val :=
  oa ← deref a;
  ob ← deref b;
  match oa, ob with
  | Some (OList xs), Some (OList ys) => alloc (OList (xs ++ ys))
  | _, _ => raise TypeError
  end.

(** [d[k] = x], in place. *)
Definition setitem_dict (d : val) (k : str) (x : val) : M unit :=
  o ← deref d;
  match o, d with
  | Some (ODict fs), VRef l => store l (ODict (fields_set fs k x))
  | _, _ => raise TypeError
  end.

(** [l[i] = x], in place. *)
Definition setitem_list (l : val) (i : nat) (x : val) : M unit :=
  o ← deref l;
  match o, l with
  | Some (OList xs), VRef a =>
      if bool_decide (i < length xs)%nat then store a (OList (<[i := x]> xs))
      else raise IndexError
  | _, _ => raise TypeError
  end.

(** [l.append(x)], in place. *)
Definition append (l x : val) : M unit :=
  o ← deref l;
  match o, l with
  | Some (OList xs), VRef a => store a (OList (xs ++ [x]))
  | _, _ => raise AttributeError
  end.

(** [l.extend(ys)] for a list [ys], in place. *)
Definition extend (l ys : val) : M unit :=
  o ← deref l;
  oy ← deref ys;
  match o, l, oy with
  | Some (OList xs), VRef a, Some (OList ys) => store a (OList (xs ++ ys))
  | _, _, _ => raise TypeError
  end.

Definition eq_str (v : val) (s : str) : bool :=
  match v with
  | VStr t => bool_decide (t = s)
  | _ => false
  end.

(** [{"type": "image_url", "image_url": {"url": url}}] *)
Definition image_block (url : str) : M val :=
  inner ← alloc (ODict [(py "url", VStr url)]);
  alloc (ODict [(py "type", VStr (py "image_url")); (py "image_url", inner)]).

(** The list comprehension over [image_urls]. *)
Fixpoint image_blocks (image_urls : list str) : M (list val) :=
  match image_urls with
  | [] => mret []
  | url :: rest =>
      b ← image_block url;
      bs ← image_blocks rest;
      mret (b :: bs)
  end.

Fixpoint find_last_user (messages : val) (n : nat) : M (option nat) :=
  match n with
  | O => mret None
  | S i =>
      m ← getitem messages i;
      role ← get m (py "role") VNone;
      if eq_str role (py "user") then mret (Some i)
      else find_last_user messages i
  end.

(** Lines 84-95: the update of [user_msg["content"]]. *)
Definition set_content (user_msg content img_blocks : val) : M unit :=
  o ← deref content;
  match content, o with
  | VStr s, _ =>
      content_blocks ← alloc (OList []);
      _ ← (if negb (bool_decide (strip s = []))
           then
             tb ← alloc (ODict [(py "type", VStr (py "text")); (py "text", VStr s)]);
             append content_blocks tb
           else mret ());
      _ ← extend content_blocks img_blocks;
      setitem_dict user_msg (py "content") content_blocks
  | _, Some (OList _) =>
      new ← concat content img_blocks;
      setitem_dict user_msg (py "content") new
  | _, _ => setitem_dict user_msg (py "content") img_blocks
  end.

Definition ensure_multimodal_message (messages : val) (image_urls : list str) : M val :=
  if bool_decide (image_urls = []) then mret messages else
  n ← len messages;
  user_idx ← find_last_user messages n;
  bs ← image_blocks image_urls;
  img_blocks ← alloc (OList bs);
  match user_idx with
  | None =>
      copy ← list_ messages;
      new_msg ← alloc (ODict [(py "role", VStr (py "user")); (py "content", img_blocks)]);
      tail ← alloc (OList [new_msg]);
      concat copy tail
  | Some user_idx =>
      m ← getitem messages user_idx;
      user_msg ← dict_ m;
      content ← get user_msg (py "content") (VStr []);
      _ ← set_content user_msg content img_blocks;
      messages ← list_ messages;
      _ ← setitem_list messages user_idx user_msg;
      mret messages
  end.

(** The JSON value a stored value stands for; [fuel] bounds the nesting
    depth followed. *)
Fixpoint denote (fuel : nat) (h : heap) (v : val) : option json :=
  match v with
  | VNone => Some JNull
  | VBool b => Some (JBool b)
  | VInt n => Some (JInt n)
  | VFloat m e => Some (JFloat m e)
  | VNonFinite f => Some (JNonFinite f)
  | VStr s => Some (JStr s)
  | VRef l =>
      match fuel with
      | O => None
      | S fuel =>
          match h !! l with
          | Some (OList xs) => JList <$> mapM (denote fuel h) xs
          | Some (ODict d) =>
              JDict <$> mapM (fun kv => pair kv.1 <$> denote fuel h kv.2) d
          | None => None
          end
      end
  end.

(** The computation [m], started in [h], returns normally with a result
    and a final store that satisfy [Q]. *)
Definition succeeds {A} (m : M A) (h : heap) (Q : A -> heap -> Prop) : Prop :=
  exists a h', m h = Ok (a, h') /\ Q a h'.

(** A reference to a dict of the store [h]. *)
Definition is_dict_ref (h : heap) (v : val) : Prop :=
  exists (l : loc) d, v = VRef l /\ h !! l = Some (ODict d).

End Heap.

(** ** Example inputs *)

Definition sys_msg : json :=
  JDict [(py "role", JStr (py "system")); (py "content", JStr (py "sys"))].

Definition describe_msg : json :=
  JDict [(py "role", JStr (py "user")); (py "content", JStr (py "describe"))].

Definition url_U : str := py "http://host/u.png".

Definition hex32 : str := py "0123456789abcdef0123456789abcdef".

(** An upstream that answers every request with [r]. *)
Definition answers (r : Response) : dict -> bool -> outcome raised Response :=
  fun _ _ => Ok r.

(** [201 Created] with a JSON body lacking [id] and [model]. *)
Definition created : Response :=
  {| status_code := 201;
     http_error_msg := [];
     content_type := Some (py "application/json");
     json_body := Decoded (JDict [(py "object", JStr (py "chat.completion"))]);
     iter_content := [] |}.

(** [429 Too Many Requests] with a JSON error body. *)
Definition too_many : Response :=
  {| status_code := 429;
     http_error_msg := py "429 Client Error: Too Many Requests for url: u";
     content_type := Some (py "application/json");
     json_body := Decoded (JDict [(py "error", JDict [(py "message", JStr (py "slow down"))])]);
     iter_content := [] |}.

(** [429 Too Many Requests] with the JSON body [{"error": "\ud800"}]: the
    string decodes to the lone surrogate U+D800. *)
Definition too_many_surrogate : Response :=
  {| status_code := 429;
     http_error_msg := py "429 Client Error: Too Many Requests for url: u";
     content_type := Some (py "application/json");
     json_body := Decoded (JDict [(py "error", JStr [55296%N])]);
     iter_content := [] |}.

(** [200 OK] with the JSON body [{"x": "\ud800"}]. *)
Definition ok_surrogate : Response :=
  {| status_code := 200;
     http_error_msg := [];
     content_type := Some (py "application/json");
     json_body := Decoded (JDict [(py "x", JStr [55296%N])]);
     iter_content := [] |}.

(** [200 OK] with the JSON body [{"x": 1e400}]: the number is too large for
    a float and decodes to [inf]. *)
Definition ok_overflow : Response :=
  {| status_code := 200;
     http_error_msg := [];
     content_type := Some (py "application/json");
     json_body := Decoded (JDict [(py "x", JNonFinite PosInf)]);
     iter_content := [] |}.

(** The messages of the two exceptions of the renderer, the position left
    out. *)
Definition render_message (content : json) : str :=
  if has_nonfinite content
  then py "Out of range float values are not JSON compliant"
  else py "'utf-8' codec can't encode character: surrogates not allowed".

(** [200 OK] streaming the chunks [b"a"], [b"b"], [b"c"]. *)
Definition abc_stream : Response :=
  {| status_code := 200;
     http_error_msg := [];
     content_type := None;
     json_body := DecodeError (py "Expecting value");
     iter_content := [[x61]; [x62]; [x63]] |}.

Definition plain_body : dict :=
  [(py "model", JStr (py "m")); (py "messages", JList [describe_msg])].

Definition stream_body : dict :=
  [(py "model", JStr (py "m")); (py "messages", JList [describe_msg]);
   (py "stream", JBool true)].

Definition both_fields_body : dict :=
  [(py "messages", JList [describe_msg]);
   (py "images", JList [JStr (py "QUJD")]);
   (py "allImages", JList [JStr url_U])].

(** The payload built from [both_fields_body]. *)
Definition both_fields_payload : dict :=
  [(py "messages",
    JList [JDict [(py "role", JStr (py "user"));
                  (py "content",
                   JList [text_block (py "describe");
                          image_block (py "data:image/png;base64,QUJD")])]]);
   (py "images", JList [JStr (py "QUJD")]);
   (py "allImages", JList [JStr url_U])].

(** A store holding the one-message sequence [[describe_msg]] at location 1. *)
Definition describe_store : Heap.heap :=
  [Heap.ODict [(py "role", Heap.VStr (py "user"));
               (py "content", Heap.VStr (py "describe"))];
   Heap.OList [Heap.VRef 0%nat]].

(** * Properties *)

(** ** Strings *)

Lemma startswith_spec (s prefix : str) :
  startswith s prefix = true <-> prefix `prefix_of` s.
Proof.
  revert s. induction prefix as [|p ps IH]; intros s; simpl.
  - split; [intros _; apply prefix_nil | done].
  - destruct s as [|c cs].
    + split; [done | intros H; by apply prefix_nil_not in H].
    + rewrite andb_true_iff, N.eqb_eq, IH. split.
      * intros [-> H]. by apply prefix_cons.
      * intros H. split; [by apply prefix_cons_inv_1 in H | by apply prefix_cons_inv_2 in H].
Qed.

Lemma contains_spec (sub s : str) :
  contains sub s = true <-> exists a b, s = a ++ sub ++ b.
Proof.
  induction s as [|c cs IH]; simpl.
  - rewrite orb_false_r, startswith_spec. split.
    + intros [b ->]. by exists [], b.
    + intros (a & b & H). symmetry in H.
      apply app_eq_nil in H as [-> H]. apply app_eq_nil in H as [-> ->]. done.
  - rewrite orb_true_iff, startswith_spec, IH. split.
    + intros [[b ->] | (a & b & ->)]; [by exists [], b | by exists (c :: a), b].
    + intros (a & b & H). destruct a as [|x a]; simpl in H.
      * left. by exists b.
      * right. injection H as _ ->. by exists a, b.
Qed.

Lemma lstrip_nil_iff (s : str) : lstrip s = [] <-> Forall (fun c => isspace c = true) s.
Proof.
  induction s as [|c cs IH]; simpl.
  - split; [constructor | done].
  - destruct (isspace c) eqn:E.
    + rewrite IH. split; [by constructor | by inversion 1].
    + split; [done | inversion 1; congruence].
Qed.

(** [s.strip()] is empty exactly when [s] is empty or whitespace only. *)
Lemma strip_nil_iff (s : str) : strip s = [] <-> Forall (fun c => isspace c = true) s.
Proof.
  unfold strip, rstrip. split.
  - intros H. apply lstrip_nil_iff.
    apply (f_equal reverse) in H. rewrite reverse_involutive in H. simpl in H.
    apply lstrip_nil_iff in H. apply Forall_reverse in H.
    rewrite reverse_involutive in H.
    destruct (lstrip s) as [|c cs] eqn:E; [done|].
    assert (Hc : isspace c = false).
    { clear H. induction s as [|x xs IH]; simpl in E; [done|].
      destruct (isspace x) eqn:Ex; [by apply IH | congruence]. }
    inversion H; congruence.
  - intros H. apply lstrip_nil_iff in H. by rewrite H.
Qed.

(** ** Image normalizer *)

Lemma dedupe_seen (urls : list str) (u : str) :
  u ∈ (foldl dedupe_step (∅, []) urls).1 <-> u ∈ urls.
Proof.
  induction urls as [|v urls IH] using rev_ind.
  - simpl. set_solver.
  - rewrite foldl_app. simpl. unfold dedupe_step at 1.
    case_bool_decide as Hv; simpl; set_solver.
Qed.

(** One more candidate: appended unless it was met before. *)
Lemma dedupe_snoc (urls : list str) (u : str) :
  dedupe (urls ++ [u]) = dedupe urls ++ (if bool_decide (u ∈ urls) then [] else [u]).
Proof.
  unfold dedupe. rewrite foldl_app. simpl. unfold dedupe_step at 1.
  rewrite (bool_decide_ext _ _ (dedupe_seen urls u)).
  case_bool_decide; simpl; [by rewrite app_nil_r | done].
Qed.

Lemma dedupe_elem_of (urls : list str) (u : str) : u ∈ dedupe urls <-> u ∈ urls.
Proof.
  induction urls as [|v urls IH] using rev_ind; [done|].
  rewrite dedupe_snoc. case_bool_decide; set_solver.
Qed.

Lemma dedupe_NoDup (urls : list str) : NoDup (dedupe urls).
Proof.
  induction urls as [|v urls IH] using rev_ind; [constructor|].
  rewrite dedupe_snoc. case_bool_decide as Hv.
  - by rewrite app_nil_r.
  - apply NoDup_app. split_and!; [done | | apply NoDup_singleton].
    intros x Hx ->%list_elem_of_singleton. by apply Hv, dedupe_elem_of.
Qed.

(** Of two entries of the result, the earlier one occurs among the
    candidates before every occurrence of the later one. *)
Lemma dedupe_order (urls : list str) (i j : nat) (x y : str) :
  (i < j)%nat -> dedupe urls !! i = Some x -> dedupe urls !! j = Some y ->
  exists a : nat, urls !! a = Some x /\ forall b : nat, urls !! b = Some y -> (a < b)%nat.
Proof.
  revert i j x y. induction urls as [|v urls IH] using rev_ind; intros i j x y Hij Hi Hj.
  { done. }
  rewrite dedupe_snoc in Hi, Hj.
  assert (Hold : forall a : nat, urls !! a = Some x ->
            (forall b : nat, urls !! b = Some y -> (a < b)%nat) ->
            exists a : nat, (urls ++ [v]) !! a = Some x /\
              forall b : nat, (urls ++ [v]) !! b = Some y -> (a < b)%nat).
  { intros a Ha Hb. exists a. split; [by apply lookup_app_l_Some|].
    intros b Hy. apply lookup_lt_Some in Ha.
    destruct (decide (b < length urls)%nat) as [Hlt|Hge]; [|lia].
    rewrite lookup_app_l in Hy by done. by apply Hb. }
  destruct (decide (j < length (dedupe urls))%nat) as [Hlt|Hge].
  - rewrite lookup_app_l in Hi, Hj by lia.
    destruct (IH i j x y Hij Hi Hj) as (a & Ha & Hb). by eapply Hold.
  - case_bool_decide as Hv.
    { rewrite app_nil_r in Hj. apply lookup_lt_Some in Hj. lia. }
    assert (j = length (dedupe urls)) as ->.
    { apply lookup_lt_Some in Hj. rewrite length_app in Hj. simpl in Hj. lia. }
    rewrite lookup_app_l in Hi by lia.
    rewrite list_lookup_middle in Hj by done. injection Hj as <-.
    assert (Hx : x ∈ urls) by (apply dedupe_elem_of; by eapply list_elem_of_lookup_2).
    apply list_elem_of_lookup_1 in Hx as [a Ha]. apply (Hold a Ha).
    intros b Hb. exfalso. apply Hv. by eapply list_elem_of_lookup_2.
Qed.

Lemma collect_url_app (urls : list str) (x : json) :
  collect_url urls x = urls ++ collect_url [] x.
Proof.
  unfold collect_url. destruct x as [| | | | |s|l|d]; rewrite ?app_nil_r; try done.
  - by destruct (_ || _).
  - destruct (dict_get d _ _); rewrite ?app_nil_r; try done.
    by destruct (truthy _); rewrite ?app_nil_r.
Qed.

Lemma candidate_urls_snoc (xs : list json) (x : json) :
  candidate_urls (xs ++ [x]) = candidate_urls xs ++ collect_url [] x.
Proof. unfold candidate_urls. rewrite foldl_app. simpl. apply collect_url_app. Qed.

Lemma collect_url_string (x : str) : collect_url [] (JStr x) = [string_url x].
Proof. unfold collect_url, string_url. by destruct (_ || _). Qed.

Lemma candidate_urls_string (xs : list json) (x : str) :
  JStr x ∈ xs -> string_url x ∈ candidate_urls xs.
Proof.
  induction xs as [|y xs IH] using rev_ind; [by intros ?%elem_of_nil|].
  rewrite candidate_urls_snoc. intros [H | <-%list_elem_of_singleton]%elem_of_app.
  - apply elem_of_app. left. by apply IH.
  - apply elem_of_app. right. rewrite collect_url_string. apply list_elem_of_singleton. done.
Qed.

Lemma prepare_image_urls_list (xs : list json) :
  prepare_image_urls (JList xs) = Ok (dedupe (candidate_urls xs)).
Proof. by destruct xs. Qed.

(** ** Message composer *)

Lemma bind_Ok {E A B} (a : A) (f : A -> outcome E B) : (Ok a ≫= f) = f a.
Proof. reflexivity. Qed.

Lemma find_last_user_none (ms : list json) (n : nat) :
  (forall i : nat, (i < n)%nat -> exists m, ms !! i = Some m /\ other_message m) ->
  find_last_user (JList ms) n = Ok None.
Proof.
  induction n as [|n IH]; intros H; [done|].
  destruct (H n) as (m & Hm & Hdict & Hrole); [lia|].
  simpl. rewrite Hm, bind_Ok. destruct m; try done.
  simpl in *. rewrite Hrole. apply IH. intros i Hi. apply H. lia.
Qed.

Lemma find_last_user_found (ms : list json) (k n : nat) (m : json) :
  (k < n)%nat -> ms !! k = Some m -> has_role_user m = true ->
  (forall i : nat, (k < i < n)%nat -> exists m, ms !! i = Some m /\ other_message m) ->
  find_last_user (JList ms) n = Ok (Some k).
Proof.
  induction n as [|n IH]; intros Hk Hm Hrole H; [lia|].
  destruct (decide (n = k)) as [->|Hne].
  - simpl. rewrite Hm, bind_Ok. destruct m; try done.
    simpl in *. by rewrite Hrole.
  - destruct (H n) as (m' & Hm' & Hdict & Hrole'); [lia|].
    simpl. rewrite Hm', bind_Ok. destruct m'; try done.
    simpl in *. rewrite Hrole'. apply IH; [lia|done|done|].
    intros i Hi. apply H. lia.
Qed.

Lemma Forall_other_lookup (ms : list json) :
  Forall other_message ms ->
  forall i : nat, (i < length ms)%nat -> exists m, ms !! i = Some m /\ other_message m.
Proof.
  intros H i Hi. destruct (lookup_lt_is_Some_2 ms i Hi) as [m Hm].
  exists m. split; [done|]. by eapply Forall_lookup_1.
Qed.

(** Without a user message the scan finds nothing, and the new turn is
    appended. *)
Lemma compose_no_user (ms : list json) (image_urls : list str) :
  image_urls <> [] -> Forall other_message ms ->
  ensure_multimodal_message (JList ms) image_urls =
    Ok (JList (ms ++ [JDict [(py "role", JStr (py "user"));
                             (py "content", JList (image_block <$> image_urls))]])).
Proof.
  intros Hne Hms. unfold ensure_multimodal_message.
  rewrite bool_decide_eq_false_2 by done. simpl py_len. rewrite bind_Ok.
  rewrite find_last_user_none by (by apply Forall_other_lookup).
  by rewrite bind_Ok.
Qed.

(** With a last user message [JDict d], only its content is rewritten. *)
Lemma compose_last_user (pre post : list json) (d : dict) (image_urls : list str) :
  image_urls <> [] -> has_role_user (JDict d) = true -> Forall other_message post ->
  ensure_multimodal_message (JList (pre ++ JDict d :: post)) image_urls =
    Ok (JList (pre ++
          JDict (dict_set d (py "content")
                   (merged_content (dict_get d (py "content") (JStr []))
                                   (image_block <$> image_urls)))
          :: post)).
Proof.
  intros Hne Hd Hpost. unfold ensure_multimodal_message.
  rewrite bool_decide_eq_false_2 by done. simpl py_len. rewrite bind_Ok.
  rewrite (find_last_user_found _ (length pre) _ (JDict d)).
  - rewrite bind_Ok. simpl py_getitem. rewrite list_lookup_middle by done.
    rewrite bind_Ok. simpl py_dict. rewrite bind_Ok. simpl py_list. rewrite bind_Ok.
    rewrite insert_app_r_alt, Nat.sub_diag by done. done.
  - rewrite length_app. simpl. lia.
  - by apply list_lookup_middle.
  - done.
  - intros i Hi. rewrite length_app in Hi. simpl in Hi.
    rewrite lookup_app_r by lia.
    destruct (i - length pre)%nat as [|j] eqn:Hj; [lia|]. simpl.
    apply Forall_other_lookup; [done | lia].
Qed.

Lemma dict_lookup_set_eq (d : dict) (k : str) (v : json) :
  dict_lookup k (dict_set d k v) = Some v.
Proof.
  induction d as [|[k' v'] d IH]; simpl.
  - by rewrite bool_decide_eq_true_2.
  - case_bool_decide as Hk; simpl.
    + by rewrite bool_decide_eq_true_2.
    + by rewrite bool_decide_eq_false_2.
Qed.

Lemma dict_lookup_set_ne (d : dict) (k k' : str) (v : json) :
  k' <> k -> dict_lookup k' (dict_set d k v) = dict_lookup k' d.
Proof.
  intros Hne. induction d as [|[k0 v0] d IH]; simpl.
  - rewrite bool_decide_eq_false_2; [done | congruence].
  - case_bool_decide as Hk; simpl.
    + subst k0. by rewrite !bool_decide_eq_false_2 by congruence.
    + case_bool_decide; [done | apply IH].
Qed.

(** ** The composer on the store *)

Module HeapFacts.
Import Heap.

Lemma succeeds_ret {A} (a : A) h (Q : A -> heap -> Prop) :
  Q a h -> succeeds (mret a) h Q.
Proof. intros H. by exists a, h. Qed.

Lemma succeeds_bind {A B} (m : M A) (f : A -> M B) h (Q : B -> heap -> Prop) :
  succeeds m h (fun a h' => succeeds (f a) h' Q) -> succeeds (m ≫= f) h Q.
Proof.
  intros (a & h' & Hm & b & h'' & Hf & HQ). exists b, h''. split; [|done].
  unfold mbind, M_bind. by rewrite Hm.
Qed.

Lemma succeeds_alloc o h (Q : val -> heap -> Prop) :
  Q (VRef (length h)) (h ++ [o]) -> succeeds (alloc o) h Q.
Proof. intros H. by eexists _, _. Qed.

Lemma succeeds_deref v h (Q : option obj -> heap -> Prop) :
  Q (match v with VRef l => h !! l | _ => None end) h -> succeeds (deref v) h Q.
Proof. intros H. eexists _, h. split; [|exact H]. by destruct v. Qed.

Lemma succeeds_store l o h (Q : unit -> heap -> Prop) :
  Q () (<[l := o]> h) -> succeeds (store l o) h Q.
Proof. intros H. by eexists _, _. Qed.

(** Building the image blocks only allocates. *)
Lemma succeeds_image_blocks image_urls h (Q : list val -> heap -> Prop) :
  (forall bs k, Q bs (h ++ k)) -> succeeds (image_blocks image_urls) h Q.
Proof.
  revert h Q. induction image_urls as [|url rest IH]; intros h Q HQ; simpl.
  - apply succeeds_ret. specialize (HQ [] []). by rewrite app_nil_r in HQ.
  - apply succeeds_bind. unfold image_block. apply succeeds_bind, succeeds_alloc.
    apply succeeds_alloc. apply succeeds_bind, IH. intros bs k.
    apply succeeds_ret. rewrite <- !app_assoc. apply HQ.
Qed.

(** The scan reads only, and an index it returns is one it visited. *)
Lemma succeeds_find_last_user (l : loc) items n h (Q : option nat -> heap -> Prop) :
  h !! l = Some (OList items) -> (n <= length items)%nat ->
  Forall (is_dict_ref h) items ->
  (forall r, (forall i, r = Some i -> (i < n)%nat) -> Q r h) ->
  succeeds (find_last_user (VRef l) n) h Q.
Proof.
  intros Hl Hn Hitems. revert Q. induction n as [|n IH]; intros Q HQ; simpl.
  - apply succeeds_ret, HQ. by intros i.
  - destruct (lookup_lt_is_Some_2 items n) as [m Hm]; [lia|].
    destruct (Forall_lookup_1 _ _ _ _ Hitems Hm) as (lm & d & -> & Hd).
    apply succeeds_bind. unfold getitem. apply succeeds_bind, succeeds_deref.
    rewrite Hl, Hm. apply succeeds_ret.
    apply succeeds_bind. unfold get. apply succeeds_bind, succeeds_deref.
    rewrite Hd. apply succeeds_ret.
    destruct (eq_str _ _).
    + apply succeeds_ret, HQ. intros i [= <-]. lia.
    + apply IH; [lia|]. intros r Hr. apply HQ. intros i Hi. specialize (Hr i Hi). lia.
Qed.

Lemma fields_lookup_set_ne d (k k' : str) (v : val) :
  k' <> k -> fields_lookup k' (fields_set d k v) = fields_lookup k' d.
Proof.
  intros Hne. induction d as [|[k0 v0] d IH]; simpl.
  - rewrite bool_decide_eq_false_2; [done | congruence].
  - case_bool_decide as Hk; simpl.
    + subst k0. by rewrite !bool_decide_eq_false_2 by congruence.
    + case_bool_decide; [done | apply IH].
Qed.

Lemma fields_lookup_set_eq d (k : str) (v : val) :
  fields_lookup k (fields_set d k v) = Some v.
Proof.
  induction d as [|[k' v'] d IH]; simpl.
  - by rewrite bool_decide_eq_true_2.
  - case_bool_decide as Hk; simpl.
    + by rewrite bool_decide_eq_true_2.
    + by rewrite bool_decide_eq_false_2.
Qed.

Lemma prefix_insert_fresh (h0 h : heap) (l : loc) o :
  h0 `prefix_of` h -> (length h0 <= l)%nat -> h0 `prefix_of` <[l := o]> h.
Proof.
  intros [k ->] Hl. rewrite insert_app_r_alt by done. by eexists.
Qed.

Ltac len :=
  repeat match goal with
    | H : context [length (_ ++ _)] |- _ => rewrite length_app in H
    | H : context [length (<[_:=_]> _)] |- _ => rewrite length_insert in H
    | |- context [length (_ ++ _)] => rewrite length_app
    | |- context [length (<[_:=_]> _)] => rewrite length_insert
    end;
  cbn [length] in *; lia.

Ltac heap_simpl :=
  repeat first
    [ rewrite list_lookup_insert_eq by len
    | rewrite list_lookup_insert_ne by len
    | rewrite lookup_app_l by len
    | rewrite list_lookup_middle by len ].

Ltac step :=
  first [ apply succeeds_bind | apply succeeds_ret | apply succeeds_alloc
        | apply succeeds_deref | apply succeeds_store ].

Ltac grows :=
  repeat first
    [ done
    | apply prefix_insert_fresh; [|len]
    | apply prefix_app_r ].

(** Rewriting the content writes to the copy [lu] and to objects newer
    than it only; of the copy, only the field [content] changes. *)
Lemma succeeds_set_content (h0 h : heap) (lu limg : loc) d bs content
    (Q : unit -> heap -> Prop) :
  h0 `prefix_of` h -> (length h0 <= lu)%nat ->
  h !! lu = Some (ODict d) -> h !! limg = Some (OList bs) -> limg <> lu ->
  (forall h' c, h0 `prefix_of` h' -> (length h <= length h')%nat ->
     h' !! lu = Some (ODict (fields_set d (py "content") c)) -> Q () h') ->
  succeeds (set_content (VRef lu) content (VRef limg)) h Q.
Proof.
  intros Hpre Hfresh Hlu Himg Hne HQ.
  pose proof (prefix_length _ _ Hpre) as Hlen.
  pose proof (lookup_lt_Some _ _ _ Hlu) as Hlu'.
  pose proof (lookup_lt_Some _ _ _ Himg) as Himg'.
  assert (Hset : forall (c : val) (h1 : heap), h0 `prefix_of` h1 ->
            (length h <= length h1)%nat -> h1 !! lu = Some (ODict d) ->
            succeeds (setitem_dict (VRef lu) (py "content") c) h1 Q).
  { intros c h1 Hpre1 Hlen1 Hlu1. unfold setitem_dict. do 2 step. rewrite Hlu1. step.
    apply (HQ _ c); [grows | len | by heap_simpl]. }
  unfold set_content. do 2 step.
  destruct content as [| | | | |s|c].
  1-5: by apply Hset.
  - assert (Hrest : forall (h1 : heap) xs, h0 `prefix_of` h1 ->
              (length h < length h1)%nat -> h1 !! length h = Some (OList xs) ->
              h1 !! lu = Some (ODict d) -> h1 !! limg = Some (OList bs) ->
              succeeds (extend (VRef (length h)) (VRef limg)
                        ≫= fun _ => setitem_dict (VRef lu) (py "content") (VRef (length h)))
                       h1 Q).
    { intros h1 xs Hpre1 Hlen1 Hc1 Hlu1 Himg1. unfold extend. do 5 step.
      rewrite Hc1, Himg1. step. apply Hset; [grows | len | by heap_simpl]. }
    do 2 step. step. destruct (negb _).
    + do 2 step. unfold append. do 2 step. heap_simpl. step.
      eapply Hrest; [grows | len | by heap_simpl | by heap_simpl | by heap_simpl].
    + step. eapply Hrest; [grows | len | by heap_simpl | by heap_simpl | by heap_simpl].
  - destruct (h !! c) as [[xs|fs]|] eqn:Hc; try by apply Hset.
    unfold concat. do 5 step. rewrite Hc, Himg. step.
    apply Hset; [grows | len | by heap_simpl].
Qed.

(** C7.  For a stored message sequence [items] at [l] (every message a
    dict) and a non-empty image-URL list, the composer returns a reference
    [l'] to a new list object; every object of the input store is still what
    it was ([h] is a prefix of the final store [h']), so neither the input
    sequence nor any message or content list reachable from it is mutated;
    every entry of the result other than the one at the modified or appended
    position [i] is the very reference of the input; and the modified
    message is a new dict whose fields other than [content] hold what the
    original's hold. *)
Theorem compose_leaves_input_untouched
    (h : heap) (l : loc) (items : list val) (image_urls : list str) :
  image_urls <> [] -> h !! l = Some (OList items) ->
  Forall (is_dict_ref h) items ->
  exists (l' : loc) (h' : heap) (items' : list val) (i : nat),
    ensure_multimodal_message (VRef l) image_urls h = Ok (VRef l', h') /\
    h `prefix_of` h' /\ (length h <= l')%nat /\
    h' !! l' = Some (OList items') /\
    (forall j : nat, j <> i -> items' !! j = items !! j) /\
    ((i = length items /\ length items' = S (length items)) \/
     (length items' = length items /\
      exists (lm lm' : loc) d d',
        items !! i = Some (VRef lm) /\ h !! lm = Some (ODict d) /\
        items' !! i = Some (VRef lm') /\ (length h <= lm')%nat /\
        h' !! lm' = Some (ODict d') /\
        forall k : str, k <> py "content" ->
          fields_lookup k d' = fields_lookup k d)).
Proof.
  intros Hne Hl Hitems.
  enough (succeeds (ensure_multimodal_message (VRef l) image_urls) h
    (fun r h' =>
      exists (l' : loc) (items' : list val) (i : nat),
        r = VRef l' /\ h `prefix_of` h' /\ (length h <= l')%nat /\
        h' !! l' = Some (OList items') /\
        (forall j : nat, j <> i -> items' !! j = items !! j) /\
        ((i = length items /\ length items' = S (length items)) \/
         (length items' = length items /\
          exists (lm lm' : loc) d d',
            items !! i = Some (VRef lm) /\ h !! lm = Some (ODict d) /\
            items' !! i = Some (VRef lm') /\ (length h <= lm')%nat /\
            h' !! lm' = Some (ODict d') /\
            forall k : str, k <> py "content" ->
              fields_lookup k d' = fields_lookup k d))))
    as (r & h' & Hrun & l' & items' & i & -> & H).
  { by exists l', h', items', i. }
  unfold ensure_multimodal_message.
  rewrite bool_decide_eq_false_2 by done.
  pose proof (lookup_lt_Some _ _ _ Hl) as Hlen.
  unfold len. do 2 step. step. rewrite Hl. step.
  apply succeeds_bind, (succeeds_find_last_user l items); [done|lia|done|].
  intros r Hr. apply succeeds_bind, succeeds_image_blocks. intros bs k.
  do 2 step. destruct r as [i|].
  - specialize (Hr i eq_refl).
    destruct (lookup_lt_is_Some_2 items i Hr) as [m Hm].
    destruct (Forall_lookup_1 _ _ _ _ Hitems Hm) as (lm & d & -> & Hd).
    pose proof (lookup_lt_Some _ _ _ Hd) as Hlm.
    unfold getitem. do 3 step. heap_simpl. rewrite Hl, Hm. step.
    unfold dict_. do 3 step. heap_simpl. rewrite Hd. step.
    unfold get. do 3 step. heap_simpl. step.
    step. eapply (succeeds_set_content h);
      [grows | len | by heap_simpl | by heap_simpl | len |].
    intros h' c Hpre' Hlen' Hlu'.
    unfold list_. do 3 step. rewrite (prefix_lookup_Some _ _ _ _ Hl Hpre'). step.
    unfold setitem_list. do 3 step. heap_simpl.
    rewrite bool_decide_eq_true_2 by done. step. step.
    eexists _, _, i. split_and!; [done | grows | len | by heap_simpl | | ].
    + intros j Hj. by rewrite list_lookup_insert_ne.
    + right. split; [by rewrite length_insert|].
      eexists lm, _, d, _.
      split_and!; [done | done | by rewrite list_lookup_insert_eq | len | | ].
      * pose proof (lookup_lt_Some _ _ _ Hlu') as Hlt. by heap_simpl.
      * intros k' Hk'. by apply fields_lookup_set_ne.
  - unfold list_. do 3 step. heap_simpl. rewrite Hl. step.
    do 2 step. do 2 step. unfold concat. do 4 step. heap_simpl. step.
    eexists _, _, (length items). split_and!; [done | grows | len | by heap_simpl | | ].
    + intros j Hj. destruct (decide (j < length items)%nat).
      * by rewrite lookup_app_l.
      * rewrite !lookup_ge_None_2; [done | lia | len].
    + left. split; [done | len].
Qed.

End HeapFacts.



(** ** The store model refines the value model *)

Lemma M_bind_Ok {A B} (m : Heap.M A) (f : A -> Heap.M B) h a h' :
  m h = Ok (a, h') -> (m ≫= f) h = f a h'.
Proof. intros H. unfold mbind, Heap.M_bind. by rewrite H. Qed.

(** A value that denotes keeps its denotation with more fuel and in a
    larger store. *)
Lemma denote_mono (fuel : nat) :
  forall (fuel' : nat) (h h' : Heap.heap) (v : Heap.val) (j : json),
    (fuel <= fuel')%nat -> h `prefix_of` h' ->
    Heap.denote fuel h v = Some j -> Heap.denote fuel' h' v = Some j.
Proof.
  induction fuel as [|fuel IH]; intros fuel' h h' v j Hle Hpre Hv.
  - destruct v; by destruct fuel'.
  - destruct v; try (by destruct fuel').
    destruct fuel' as [|fuel']; [lia|]. simpl in *.
    destruct (h !! l) as [[xs|d]|] eqn:Hl; [| |done];
      rewrite (prefix_lookup_Some _ _ _ _ Hl Hpre).
    + destruct (mapM (Heap.denote fuel h) xs) as [js|] eqn:Hxs; [|done].
      simpl in Hv. injection Hv as <-.
      apply mapM_Some_1 in Hxs.
      rewrite (mapM_Some_2 _ _ js); [done|].
      eapply Forall2_impl; [exact Hxs|]. intros x y Hxy. apply (IH _ h); [lia|done|done].
    + destruct (mapM (fun kv => pair kv.1 <$> Heap.denote fuel h kv.2) d) as [dj|] eqn:Hd;
        [|done].
      simpl in Hv. injection Hv as <-.
      apply mapM_Some_1 in Hd.
      rewrite (mapM_Some_2 _ _ dj); [done|].
      eapply Forall2_impl; [exact Hd|]. intros [k x] y Hxy. simpl in *.
      destruct (Heap.denote fuel h x) as [jx|] eqn:Hx; [|done].
      by rewrite (IH fuel' h h' x jx) by (done || lia).
Qed.

(** The fields of a dict and of its denotation correspond. *)
Lemma fields_lookup_denote (fuel : nat) (h : Heap.heap) d (dj : dict) (k : str) :
  mapM (fun kv => pair kv.1 <$> Heap.denote fuel h kv.2) d = Some dj ->
  match Heap.fields_lookup k d with
  | Some v => exists jv : json, Heap.denote fuel h v = Some jv /\ dict_lookup k dj = Some jv
  | None => dict_lookup k dj = None
  end.
Proof.
  intros H%mapM_Some_1. induction H as [|[k1 v] [k2 j] d dj Hkv _ IH]; [done|].
  simpl in *. destruct (Heap.denote fuel h v) as [jv|] eqn:Hv; [|done].
  simpl in Hkv. injection Hkv as <- <-.
  case_bool_decide; simpl; [by exists jv | exact IH].
Qed.

Lemma eq_str_denote (fuel : nat) (h : Heap.heap) (v : Heap.val) (j : json) (s : str) :
  Heap.denote fuel h v = Some j -> py_eq_str j s = Heap.eq_str v s.
Proof.
  destruct v; destruct fuel; simpl; try (by intros [= <-]).
  destruct (h !! l) as [[xs|d]|]; [| |done].
  - destruct (mapM _ xs); [|done]. by intros [= <-].
  - destruct (mapM _ d); [|done]. by intros [= <-].
Qed.

Lemma getitem_list (h : Heap.heap) (l : Heap.loc) items (i : nat) (x : Heap.val) :
  h !! l = Some (Heap.OList items) -> items !! i = Some x ->
  Heap.getitem (Heap.VRef l) i h = Ok (x, h).
Proof.
  intros Hl Hi. unfold Heap.getitem, mbind, Heap.M_bind, Heap.deref. by rewrite Hl, Hi.
Qed.

Lemma get_dict (h : Heap.heap) (l : Heap.loc) d (k : str) (dflt : Heap.val) :
  h !! l = Some (Heap.ODict d) ->
  Heap.get (Heap.VRef l) k dflt h = Ok (default dflt (Heap.fields_lookup k d), h).
Proof. intros Hl. unfold Heap.get, mbind, Heap.M_bind, Heap.deref. by rewrite Hl. Qed.

(** A stored message denotes a dict whose role test agrees. *)
Lemma message_denote (fuel : nat) (h : Heap.heap) (lm : Heap.loc) d (j : json) :
  h !! lm = Some (Heap.ODict d) -> Heap.denote fuel h (Heap.VRef lm) = Some j ->
  exists (fuel0 : nat) (dj : dict),
    fuel = S fuel0 /\ j = JDict dj /\
    mapM (fun kv => pair kv.1 <$> Heap.denote fuel0 h kv.2) d = Some dj.
Proof.
  intros Hlm Hj. destruct fuel as [|fuel0]; [done|]. simpl in Hj. rewrite Hlm in Hj.
  destruct (mapM _ d) as [dj|] eqn:Hd; [|done]. injection Hj as <-. by exists fuel0, dj.
Qed.

Lemma role_test_denote (fuel : nat) (h : Heap.heap) d (dj : dict) :
  mapM (fun kv => pair kv.1 <$> Heap.denote fuel h kv.2) d = Some dj ->
  py_eq_str (dict_get dj (py "role") JNull) (py "user") =
  Heap.eq_str (default Heap.VNone (Heap.fields_lookup (py "role") d)) (py "user").
Proof.
  intros Hd. unfold dict_get.
  pose proof (fields_lookup_denote _ _ _ _ (py "role") Hd) as Hk.
  destruct (Heap.fields_lookup (py "role") d) as [v|].
  - destruct Hk as (jv & Hv & ->). by apply (eq_str_denote fuel h).
  - by rewrite Hk.
Qed.

Lemma find_last_user_S (messages : json) (i : nat) :
  find_last_user messages (S i) =
    m ← py_getitem messages i;
    role ← py_get m (py "role");
    if py_eq_str role (py "user") then Ok (Some i) else find_last_user messages i.
Proof. reflexivity. Qed.

Lemma heap_find_last_user_S (messages : Heap.val) (i : nat) :
  Heap.find_last_user messages (S i) =
    m ← Heap.getitem messages i;
    role ← Heap.get m (py "role") Heap.VNone;
    if Heap.eq_str role (py "user") then mret (Some i)
    else Heap.find_last_user messages i.
Proof. reflexivity. Qed.

(** The scan on the store and the scan on the denoted sequence find the
    same index, and the scan leaves the store as it is. *)
Lemma find_last_user_refines (fuel : nat) (h : Heap.heap) (l : Heap.loc)
    items (js : list json) (n : nat) :
  h !! l = Some (Heap.OList items) ->
  Forall (Heap.is_dict_ref h) items ->
  Forall2 (fun v j => Heap.denote fuel h v = Some j) items js ->
  (n <= length items)%nat ->
  exists r : option nat,
    Heap.find_last_user (Heap.VRef l) n h = Ok (r, h) /\
    find_last_user (JList js) n = Ok r /\
    forall i : nat, r = Some i -> (i < n)%nat.
Proof.
  intros Hl Hitems Hjs. induction n as [|n IH]; intros Hn.
  - exists None. by split_and!.
  - destruct (lookup_lt_is_Some_2 items n) as [m Hm]; [lia|].
    destruct (Forall_lookup_1 _ _ _ _ Hitems Hm) as (lm & d & -> & Hd).
    destruct (Forall2_lookup_l _ _ _ _ _ Hjs Hm) as (j & Hj & Hden).
    destruct (message_denote _ _ _ _ _ Hd Hden) as (fuel0 & dj & -> & -> & Hdj).
    rewrite find_last_user_S, heap_find_last_user_S.
    unfold py_getitem. rewrite Hj, bind_Ok. unfold py_get. rewrite bind_Ok.
    rewrite (M_bind_Ok _ _ _ _ _ (getitem_list _ _ _ _ _ Hl Hm)).
    rewrite (M_bind_Ok _ _ _ _ _ (get_dict _ _ _ _ _ Hd)).
    rewrite (role_test_denote _ _ _ _ Hdj).
    destruct (Heap.eq_str _ _).
    + exists (Some n). split_and!; [done | done |]. intros i [= <-]. lia.
    + destruct IH as (r & Hr1 & Hr2 & Hr3); [lia|].
      exists r. split_and!; [done | done |]. intros i Hi. specialize (Hr3 i Hi). lia.
Qed.

Lemma image_blocks_cons (url : str) (rest : list str) (h : Heap.heap) :
  Heap.image_blocks (url :: rest) h =
    match Heap.image_blocks rest
            ((h ++ [Heap.ODict [(py "url", Heap.VStr url)]]) ++
             [Heap.ODict [(py "type", Heap.VStr (py "image_url"));
                          (py "image_url", Heap.VRef (length h))]]) with
    | Ok (bs, h') =>
        Ok (Heap.VRef (length (h ++ [Heap.ODict [(py "url", Heap.VStr url)]])) :: bs, h')
    | Raise e => Raise e
    end.
Proof. reflexivity. Qed.

(** The image blocks are new objects that denote the blocks of the value
    model, also in every larger store. *)
Lemma image_blocks_refines (image_urls : list str) (h : Heap.heap) :
  exists (bs : list Heap.val) (k : Heap.heap),
    Heap.image_blocks image_urls h = Ok (bs, h ++ k) /\
    forall (h' : Heap.heap) (fuel : nat), (h ++ k) `prefix_of` h' -> (2 <= fuel)%nat ->
      Forall2 (fun b url => Heap.denote fuel h' b = Some (image_block url)) bs image_urls.
Proof.
  revert h. induction image_urls as [|url rest IH]; intros h.
  - exists [], []. split; [by rewrite app_nil_r | constructor].
  - destruct (IH ((h ++ [Heap.ODict [(py "url", Heap.VStr url)]]) ++
                  [Heap.ODict [(py "type", Heap.VStr (py "image_url"));
                               (py "image_url", Heap.VRef (length h))]]))
      as (bs & k & Hrun & Hbs).
    eexists (_ :: bs), (_ :: _ :: k). split.
    + rewrite image_blocks_cons, Hrun, length_app. by rewrite <- !app_assoc.
    + intros h' fuel Hpre Hfuel.
      assert (Hpre' : ((h ++ [Heap.ODict [(py "url", Heap.VStr url)]]) ++
                  [Heap.ODict [(py "type", Heap.VStr (py "image_url"));
                               (py "image_url", Heap.VRef (length h))]]) ++ k
                `prefix_of` h') by (by rewrite <- !app_assoc).
      constructor; [|by apply Hbs].
      assert (H1 : h' !! (length h + 1)%nat =
                   Some (Heap.ODict [(py "type", Heap.VStr (py "image_url"));
                                     (py "image_url", Heap.VRef (length h))])).
      { eapply prefix_lookup_Some; [|exact Hpre'].
        rewrite lookup_app_l by (rewrite !length_app; simpl; lia).
        by rewrite list_lookup_middle by (by rewrite length_app). }
      assert (H2 : h' !! length h = Some (Heap.ODict [(py "url", Heap.VStr url)])).
      { eapply prefix_lookup_Some; [|exact Hpre]. by rewrite list_lookup_middle. }
      destruct fuel as [|[|fuel]]; [lia | lia |]. simpl. rewrite H1. simpl. rewrite H2.
      simpl. by destruct fuel.
Qed.

Import HeapFacts.

Lemma denote_ref (fuel : nat) (h : Heap.heap) (l : Heap.loc) :
  Heap.denote (S fuel) h (Heap.VRef l) =
    match h !! l with
    | Some (Heap.OList xs) => JList <$> mapM (Heap.denote fuel h) xs
    | Some (Heap.ODict d) =>
        JDict <$> mapM (fun kv => pair kv.1 <$> Heap.denote fuel h kv.2) d
    | None => None
    end.
Proof. reflexivity. Qed.

Lemma denote_list (fuel : nat) (h : Heap.heap) (l : Heap.loc) xs (js : list json) :
  h !! l = Some (Heap.OList xs) ->
  Forall2 (fun v j => Heap.denote fuel h v = Some j) xs js ->
  Heap.denote (S fuel) h (Heap.VRef l) = Some (JList js).
Proof. intros Hl Hxs. rewrite denote_ref, Hl. by rewrite (mapM_Some_2 _ _ js). Qed.

Lemma denote_dict (fuel : nat) (h : Heap.heap) (l : Heap.loc) d (dj : dict) :
  h !! l = Some (Heap.ODict d) ->
  Forall2 (fun kv kj => pair kv.1 <$> Heap.denote fuel h kv.2 = Some kj) d dj ->
  Heap.denote (S fuel) h (Heap.VRef l) = Some (JDict dj).
Proof. intros Hl Hd. rewrite denote_ref, Hl. by rewrite (mapM_Some_2 _ _ dj). Qed.

(** Rewriting the content on the store yields a content value that
    denotes [merged_content] of the old content's denotation. *)
Lemma set_content_refines (h1 h : Heap.heap) (lu limg : Heap.loc) d bs
    (content : Heap.val) (fc : nat) (cj : json) (image_urls : list str)
    (Q : unit -> Heap.heap -> Prop) :
  h1 `prefix_of` h -> (length h1 <= lu)%nat ->
  h !! lu = Some (Heap.ODict d) -> h1 !! limg = Some (Heap.OList bs) ->
  (forall (h'' : Heap.heap) (fuel : nat), h1 `prefix_of` h'' -> (2 <= fuel)%nat ->
     Forall2 (fun b url => Heap.denote fuel h'' b = Some (image_block url)) bs image_urls) ->
  Heap.denote fc h1 content = Some cj ->
  (forall (h' : Heap.heap) (c : Heap.val),
     h1 `prefix_of` h' -> (length h <= length h')%nat ->
     h' !! lu = Some (Heap.ODict (Heap.fields_set d (py "content") c)) ->
     (forall (h'' : Heap.heap) (fuel : nat), h' `prefix_of` h'' -> (fc + 3 <= fuel)%nat ->
        Heap.denote fuel h'' c = Some (merged_content cj (image_block <$> image_urls))) ->
     Q () h') ->
  Heap.succeeds (Heap.set_content (Heap.VRef lu) content (Heap.VRef limg)) h Q.
Proof.
  intros Hpre Hfresh Hlu Himg1 Hbs Hc HQ.
  pose proof (prefix_length _ _ Hpre) as Hlen.
  pose proof (lookup_lt_Some _ _ _ Hlu) as Hlu'.
  pose proof (lookup_lt_Some _ _ _ Himg1) as Himg'.
  pose proof (prefix_lookup_Some _ _ _ _ Himg1 Hpre) as Himg.
  assert (Himgs : forall (h'' : Heap.heap) (fuel : nat), h1 `prefix_of` h'' -> (2 <= fuel)%nat ->
            Forall2 (fun v j => Heap.denote fuel h'' v = Some j) bs (image_block <$> image_urls)).
  { intros h'' fuel H1 H2. apply Forall2_fmap_r. by apply Hbs. }
  assert (Hset : forall (c : Heap.val) (h2 : Heap.heap), h1 `prefix_of` h2 ->
            (length h <= length h2)%nat -> h2 !! lu = Some (Heap.ODict d) ->
            (forall (h'' : Heap.heap) (fuel : nat),
               <[lu := Heap.ODict (Heap.fields_set d (py "content") c)]> h2 `prefix_of` h'' ->
               (fc + 3 <= fuel)%nat ->
               Heap.denote fuel h'' c = Some (merged_content cj (image_block <$> image_urls))) ->
            Heap.succeeds (Heap.setitem_dict (Heap.VRef lu) (py "content") c) h2 Q).
  { intros c h2 Hpre2 Hlen2 Hlu2 Hden. unfold Heap.setitem_dict. do 2 step.
    rewrite Hlu2. step. apply (HQ _ c); [grows | len | by heap_simpl | done]. }
  assert (Himgref : forall (h2 h'' : Heap.heap) (fuel : nat), h1 `prefix_of` h2 ->
            h2 `prefix_of` h'' -> (3 <= fuel)%nat ->
            Heap.denote fuel h'' (Heap.VRef limg) = Some (JList (image_block <$> image_urls))).
  { intros h2 h'' fuel H1 H2 H3. destruct fuel as [|fuel]; [lia|].
    assert (H1'' : h1 `prefix_of` h'') by (by etrans).
    apply (denote_list _ _ _ bs);
      [exact (prefix_lookup_Some _ _ _ _ Himg1 H1'') | apply Himgs; [done | lia]]. }
  unfold Heap.set_content. do 2 step.
  destruct content as [| | | | |s|c0].
  1-5: destruct fc; injection Hc as <-;
       (apply Hset; [done | lia | done |]);
       intros h'' fuel H1 H2; (eapply Himgref; [| exact H1 | lia]; grows).
  - assert (cj = JStr s) as -> by (destruct fc; by injection Hc).
    assert (Hm : merged_content (JStr s) (image_block <$> image_urls) =
              JList ((if bool_decide (strip s = []) then [] else [text_block s])
                     ++ (image_block <$> image_urls))).
    { unfold merged_content, truthy. by destruct (bool_decide _). }
    rewrite Hm in Hset. clear Hm. do 2 step. step.
    destruct (bool_decide (strip s = [])); simpl negb; cbv iota.
    + step. unfold Heap.extend. do 5 step. heap_simpl. rewrite Himg. step.
      apply Hset; [grows | len | by heap_simpl |].
      intros h'' fuel Hp Hf. destruct fuel as [|fuel]; [lia|].
      apply (denote_list _ _ _ ([] ++ bs)).
      * eapply prefix_lookup_Some; [|exact Hp]. by heap_simpl.
      * apply Himgs; [|lia]. etrans; [|exact Hp]. grows.
    + do 2 step. unfold Heap.append. do 2 step. heap_simpl. step.
      unfold Heap.extend. do 5 step. heap_simpl. rewrite Himg. step.
      apply Hset; [grows | len | by heap_simpl |].
      intros h'' fuel Hp Hf. destruct fuel as [|[|fuel]]; [lia | lia |].
      apply (denote_list _ _ _ (([] ++ [Heap.VRef (length (h ++ [Heap.OList []]))]) ++ bs)
               ([text_block s] ++ (image_block <$> image_urls))).
      * eapply prefix_lookup_Some; [|exact Hp]. by heap_simpl.
      * apply Forall2_app; [|apply Himgs; [|lia]; etrans; [|exact Hp]; grows].
        constructor; [|constructor]. rewrite denote_ref.
        erewrite prefix_lookup_Some; [| |exact Hp]; [|by heap_simpl].
        simpl. by destruct fuel.
  - destruct fc as [|f']; [done|]. rewrite denote_ref in Hc.
    destruct (h1 !! c0) as [[xs|fs]|] eqn:Hc0; [| |done];
      rewrite (prefix_lookup_Some _ _ _ _ Hc0 Hpre).
    + destruct (mapM (Heap.denote f' h1) xs) as [xsj|] eqn:Hxs; [|done].
      injection Hc as <-. apply mapM_Some_1 in Hxs.
      unfold Heap.concat. do 5 step.
      rewrite (prefix_lookup_Some _ _ _ _ Hc0 Hpre), Himg. step.
      apply Hset; [grows | len | by heap_simpl |].
      intros h'' fuel Hp Hf. destruct fuel as [|fuel]; [lia|].
      assert (H1'' : h1 `prefix_of` h'') by (etrans; [|exact Hp]; grows).
      apply (denote_list _ _ _ (xs ++ bs)).
      * eapply prefix_lookup_Some; [|exact Hp]. by heap_simpl.
      * apply Forall2_app; [|apply Himgs; [done|lia]].
        eapply Forall2_impl; [exact Hxs|]. intros x y Hxy.
        apply (denote_mono f' _ h1); [lia | done | done].
    + destruct (mapM _ fs) as [fsj|]; [|done]. injection Hc as <-.
      apply Hset; [done | lia | done |].
      intros h'' fuel H1 H2. eapply Himgref; [| exact H1 | lia]. grows.
Qed.

Lemma succeeds_eq {A} (m : Heap.M A) (h h' : Heap.heap) (a : A)
    (Q : A -> Heap.heap -> Prop) :
  m h = Ok (a, h') -> Q a h' -> Heap.succeeds m h Q.
Proof. intros Hm HQ. by exists a, h'. Qed.

Lemma fields_denote_mono (fuel fuel' : nat) (h h' : Heap.heap) d (dj : dict) :
  (fuel <= fuel')%nat -> h `prefix_of` h' ->
  mapM (fun kv => pair kv.1 <$> Heap.denote fuel h kv.2) d = Some dj ->
  Forall2 (fun kv kj => pair kv.1 <$> Heap.denote fuel' h' kv.2 = Some kj) d dj.
Proof.
  intros Hle Hpre Hd%mapM_Some_1. eapply Forall2_impl; [exact Hd|].
  intros [k x] y Hxy. simpl in *.
  destruct (Heap.denote fuel h x) as [jx|] eqn:Hx; [|done].
  by rewrite (denote_mono fuel fuel' h h' x jx).
Qed.

Lemma fields_set_denote (fuel : nat) (h : Heap.heap) d (dj : dict) (k : str)
    (c : Heap.val) (cj : json) :
  Forall2 (fun kv kj => pair kv.1 <$> Heap.denote fuel h kv.2 = Some kj) d dj ->
  Heap.denote fuel h c = Some cj ->
  Forall2 (fun kv kj => pair kv.1 <$> Heap.denote fuel h kv.2 = Some kj)
    (Heap.fields_set d k c) (dict_set dj k cj).
Proof.
  intros Hd Hc. induction Hd as [|[k1 v] [k2 j] d dj Hkv Hd IH]; simpl.
  - constructor; [|constructor]. simpl. by rewrite Hc.
  - simpl in Hkv. destruct (Heap.denote fuel h v) as [jv|] eqn:Hv; [|done].
    simpl in Hkv. injection Hkv as <- <-.
    case_bool_decide.
    + constructor; [|done]. simpl. by rewrite Hc.
    + constructor; [|done]. simpl. by rewrite Hv.
Qed.

(** The run on the store succeeds whenever the stored sequence denotes a
    JSON value, and its result denotes what the value model returns. *)
Theorem store_model_refines (fuel : nat) (h : Heap.heap) (l : Heap.loc)
    (items : list Heap.val) (j : json) (image_urls : list str) :
  h !! l = Some (Heap.OList items) -> Forall (Heap.is_dict_ref h) items ->
  Heap.denote fuel h (Heap.VRef l) = Some j ->
  exists (r : Heap.val) (h' : Heap.heap) (j' : json),
    Heap.ensure_multimodal_message (Heap.VRef l) image_urls h = Ok (r, h') /\
    ensure_multimodal_message j image_urls = Ok j' /\
    Heap.denote (fuel + 5) h' r = Some j'.
Proof.
  intros Hl Hitems Hj.
  destruct (decide (image_urls = [])) as [->|Hne].
  { exists (Heap.VRef l), h, j. split_and!; [done | done |].
    apply (denote_mono fuel _ h); [lia | done | done]. }
  destruct fuel as [|f]; [done|]. rewrite denote_ref, Hl in Hj.
  destruct (mapM (Heap.denote f h) items) as [js|] eqn:Hjs; [|done].
  injection Hj as <-. apply mapM_Some_1 in Hjs.
  pose proof (Forall2_length _ _ _ Hjs) as Hlenjs.
  pose proof (lookup_lt_Some _ _ _ Hl) as Hlen.
  destruct (find_last_user_refines f h l items js (length items) Hl Hitems Hjs)
    as (r & Hscan & Hscanj & Hr); [lia|].
  destruct (image_blocks_refines image_urls h) as (bs & k & Hblocks & Hbs).
  assert (Himgs : forall (h'' : Heap.heap) (fuel : nat), (h ++ k) `prefix_of` h'' ->
            (2 <= fuel)%nat ->
            Forall2 (fun v j => Heap.denote fuel h'' v = Some j) bs (image_block <$> image_urls)).
  { intros h'' fuel H1 H2. apply Forall2_fmap_r. by apply Hbs. }
  enough (Heap.succeeds (Heap.ensure_multimodal_message (Heap.VRef l) image_urls) h
            (fun r h' => exists j' : json,
               ensure_multimodal_message (JList js) image_urls = Ok j' /\
               Heap.denote (S f + 5) h' r = Some j'))
    as (r' & h' & Hrun & j' & Hpure & Hden).
  { by exists r', h', j'. }
  unfold Heap.ensure_multimodal_message, ensure_multimodal_message.
  rewrite !bool_decide_eq_false_2 by done.
  unfold Heap.len, py_len. do 2 step. step. rewrite Hl. step.
  rewrite bind_Ok, <- Hlenjs, Hscanj, bind_Ok.
  step. apply (succeeds_eq _ _ _ _ _ Hscan).
  step. apply (succeeds_eq _ _ _ _ _ Hblocks).
  do 2 step. destruct r as [i|].
  - specialize (Hr i eq_refl).
    destruct (lookup_lt_is_Some_2 items i Hr) as [m Hm].
    destruct (Forall_lookup_1 _ _ _ _ Hitems Hm) as (lm & d & -> & Hd).
    destruct (Forall2_lookup_l _ _ _ _ _ Hjs Hm) as (mj & Hmj & Hden).
    destruct (message_denote _ _ _ _ _ Hd Hden) as (f0 & dj & -> & -> & Hdj).
    pose proof (lookup_lt_Some _ _ _ Hd) as Hlm.
    assert (Hcontent : Heap.denote f0 h
              (default (Heap.VStr []) (Heap.fields_lookup (py "content") d)) =
              Some (dict_get dj (py "content") (JStr []))).
    { unfold dict_get. pose proof (fields_lookup_denote _ _ _ _ (py "content") Hdj) as Hk.
      destruct (Heap.fields_lookup (py "content") d) as [v|].
      - by destruct Hk as (jv & Hv & ->).
      - rewrite Hk. by destruct f0. }
    unfold py_getitem. rewrite Hmj, bind_Ok. unfold py_dict. rewrite bind_Ok.
    unfold py_list. rewrite bind_Ok.
    unfold Heap.getitem. do 3 step. heap_simpl. rewrite Hl, Hm. step.
    unfold Heap.dict_. do 3 step. heap_simpl. rewrite Hd. step.
    unfold Heap.get. do 3 step. heap_simpl. step.
    step. eapply (set_content_refines ((h ++ k) ++ [Heap.OList bs]));
      [grows | done | by heap_simpl | by heap_simpl | | | ].
    { intros h'' fuel H1 H2. apply Hbs; [|done]. etrans; [|exact H1]. grows. }
    { apply (denote_mono f0 _ h); [done | grows | exact Hcontent]. }
    intros h' c Hpre' Hlen' Hlu' Hc.
    assert (Hh' : h `prefix_of` h') by (etrans; [|exact Hpre']; grows).
    pose proof (lookup_lt_Some _ _ _ Hlu') as Hlt.
    unfold Heap.list_. do 3 step. rewrite (prefix_lookup_Some _ _ _ _ Hl Hh'). step.
    unfold Heap.setitem_list. do 3 step. heap_simpl.
    rewrite bool_decide_eq_true_2 by done. step. step.
    eexists. split; [reflexivity|].
    match goal with |- Heap.denote _ ?H (Heap.VRef ?L) = _ =>
      remember H as hF eqn:EhF;
      assert (HlF : hF !! L = Some (Heap.OList
                (<[i := Heap.VRef (length ((h ++ k) ++ [Heap.OList bs]))]> items)))
        by (subst hF; by heap_simpl)
    end.
    assert (HuF : hF !! length ((h ++ k) ++ [Heap.OList bs]) =
              Some (Heap.ODict (Heap.fields_set d (py "content") c)))
      by (subst hF; by heap_simpl).
    assert (HpF : h' `prefix_of` hF) by (subst hF; grows).
    assert (HhF : h `prefix_of` hF) by (by etrans).
    clear EhF.
    replace (S (S f0) + 5)%nat with (S (S (f0 + 5))) by lia.
    apply (denote_list _ _ _ _ _ HlF). apply Forall2_insert.
    + eapply Forall2_impl; [exact Hjs|]. intros x y Hxy.
      apply (denote_mono (S f0) _ h); [lia | done | done].
    + apply (denote_dict _ _ _ _ _ HuF). apply fields_set_denote.
      * apply (fields_denote_mono f0 _ h); [lia | done | done].
      * apply Hc; [done | lia].
  - unfold Heap.list_. do 3 step. heap_simpl. rewrite Hl. step.
    do 2 step. do 2 step. unfold Heap.concat. do 4 step. heap_simpl. step.
    eexists. split; [reflexivity|].
    match goal with |- Heap.denote _ ?H (Heap.VRef ?L) = _ =>
      remember H as hF eqn:EhF;
      assert (HlF : hF !! L = Some (Heap.OList (items ++
                [Heap.VRef (length (((h ++ k) ++ [Heap.OList bs]) ++ [Heap.OList items]))])))
        by (subst hF; by heap_simpl)
    end.
    assert (HnF : hF !! length (((h ++ k) ++ [Heap.OList bs]) ++ [Heap.OList items]) =
              Some (Heap.ODict [(py "role", Heap.VStr (py "user"));
                                (py "content", Heap.VRef (length (h ++ k)))]))
      by (subst hF; by heap_simpl).
    assert (HiF : hF !! length (h ++ k) = Some (Heap.OList bs)) by (subst hF; by heap_simpl).
    assert (HpF : (h ++ k) `prefix_of` hF) by (subst hF; grows).
    assert (HhF : h `prefix_of` hF) by (etrans; [|exact HpF]; grows).
    clear EhF.
    replace (S f + 5)%nat with (S (S (S (f + 3)))) by lia.
    apply (denote_list _ _ _ _ _ HlF). apply Forall2_app.
    + eapply Forall2_impl; [exact Hjs|]. intros x y Hxy.
      apply (denote_mono f _ h); [lia | done | done].
    + constructor; [|constructor]. apply (denote_dict _ _ _ _ _ HnF).
      constructor; [done|]. constructor; [|constructor]. cbn [fst snd].
      by rewrite (denote_list _ _ _ _ _ HiF (Himgs hF (f + 3)%nat HpF ltac:(lia))).
Qed.

(** * The claims *)

(** ** Image normalizer *)

Lemma url_form_iff (s : str) :
  looks_data_url (JStr s) || is_http_url (JStr s) = true <-> url_form s.
Proof.
  unfold url_form, looks_data_url, is_http_url.
  rewrite !orb_true_iff, andb_true_iff, !startswith_spec, contains_spec. tauto.
Qed.

Lemma dedupe_singleton (u : str) : dedupe [u] = [u].
Proof.
  change [u] with ([] ++ [u]) at 1. rewrite dedupe_snoc.
  rewrite bool_decide_eq_false_2; [done | apply not_elem_of_nil].
Qed.

(** C2.  The normalizer's result has no repeated entry, holds exactly the
    candidate URLs, and lists them in the order of their first occurrence
    among the candidates: of two entries, the earlier one occurs among the
    candidates before every occurrence of the later one. *)
Theorem normalized_urls_unique_in_first_seen_order (xs : list json) :
  exists urls : list str,
    prepare_image_urls (JList xs) = Ok urls /\
    NoDup urls /\
    (forall u : str, u ∈ urls <-> u ∈ candidate_urls xs) /\
    (forall (i j : nat) (x y : str),
       (i < j)%nat -> urls !! i = Some x -> urls !! j = Some y ->
       exists a : nat, candidate_urls xs !! a = Some x /\
         forall b : nat, candidate_urls xs !! b = Some y -> (a < b)%nat).
Proof.
  exists (dedupe (candidate_urls xs)). split_and!.
  - apply prepare_image_urls_list.
  - apply dedupe_NoDup.
  - intros u. apply dedupe_elem_of.
  - intros i j x y. apply dedupe_order.
Qed.

(** C3.  A plain-string descriptor already in data-URL or http(s) form is
    kept as it is, any other string is wrapped as
    [data:image/png;base64,<payload>]; this holds for the descriptor alone
    and for its URL among those of a longer list, and ["QUJD"] becomes
    ["data:image/png;base64,QUJD"]. *)
Theorem string_descriptor_kept_or_wrapped (s : str) :
  (url_form s -> prepare_image_urls (JList [JStr s]) = Ok [s]) /\
  (~ url_form s ->
     prepare_image_urls (JList [JStr s]) = Ok [py "data:image/png;base64," ++ s]) /\
  (forall xs : list json, JStr s ∈ xs ->
     exists urls : list str, prepare_image_urls (JList xs) = Ok urls /\
       (url_form s -> s ∈ urls) /\
       (~ url_form s -> py "data:image/png;base64," ++ s ∈ urls)) /\
  prepare_image_urls (JList [JStr (py "QUJD")]) = Ok [py "data:image/png;base64,QUJD"].
Proof.
  assert (Hyes : url_form s -> string_url s = s).
  { intros H%url_form_iff. unfold string_url. by rewrite H. }
  assert (Hno : ~ url_form s -> string_url s = py "data:image/png;base64," ++ s).
  { intros H. unfold string_url.
    destruct (looks_data_url (JStr s) || is_http_url (JStr s)) eqn:E; [|done].
    by apply url_form_iff in E. }
  assert (Hone : prepare_image_urls (JList [JStr s]) = Ok [string_url s]).
  { rewrite prepare_image_urls_list.
    change (candidate_urls [JStr s]) with (collect_url [] (JStr s)).
    by rewrite collect_url_string, dedupe_singleton. }
  split_and!.
  - intros H. by rewrite Hone, Hyes.
  - intros H. by rewrite Hone, Hno.
  - intros xs Hin. exists (dedupe (candidate_urls xs)).
    split; [apply prepare_image_urls_list|].
    pose proof (candidate_urls_string xs s Hin) as Hc. apply dedupe_elem_of in Hc.
    split; intros H; [by rewrite <- Hyes | by rewrite <- Hno].
  - by vm_compute.
Qed.

(** ** Message composer *)

(** C4.  Composing with an empty image-URL list returns the message
    sequence it was given: the same value, and on the store the same
    reference with the store unchanged. *)
Theorem compose_without_images_is_identity :
  (forall messages : json, ensure_multimodal_message messages [] = Ok messages) /\
  (forall (messages : Heap.val) (h : Heap.heap),
     Heap.ensure_multimodal_message messages [] h = Ok (messages, h)).
Proof. split; reflexivity. Qed.

(** C5.  When no message has role [user] and there is at least one image
    URL, the result is the input sequence followed by one new message with
    exactly the fields [role], which is ["user"], and [content], which is the
    list of one [image_url] block per URL, in order. *)
Theorem compose_appends_user_turn (ms : list json) (image_urls : list str) :
  image_urls <> [] -> Forall other_message ms ->
  exists new_msg : dict,
    ensure_multimodal_message (JList ms) image_urls = Ok (JList (ms ++ [JDict new_msg])) /\
    length (ms ++ [JDict new_msg]) = S (length ms) /\
    new_msg = [(py "role", JStr (py "user"));
               (py "content", JList (image_block <$> image_urls))] /\
    length (image_block <$> image_urls) = length image_urls /\
    forall (i : nat) (url : str), image_urls !! i = Some url ->
      (image_block <$> image_urls) !! i =
        Some (JDict [(py "type", JStr (py "image_url"));
                     (py "image_url", JDict [(py "url", JStr url)])]).
Proof.
  intros Hne Hms. eexists. split_and!.
  - by apply compose_no_user.
  - rewrite length_app. simpl. lia.
  - done.
  - apply length_fmap.
  - intros i url Hi. by rewrite list_lookup_fmap, Hi.
Qed.

(** C6.  When the last message with role [user] holds a string as content
    and there is at least one image URL, only that message changes: its
    content becomes the image blocks, preceded by a text block carrying the
    string unless the string is empty or whitespace only.  When it holds a
    list, its content becomes that list followed by the image blocks. *)
Theorem compose_rewrites_last_user_content
    (pre post : list json) (d : dict) (image_urls : list str) :
  image_urls <> [] -> has_role_user (JDict d) = true -> Forall other_message post ->
  exists d' : dict,
    ensure_multimodal_message (JList (pre ++ JDict d :: post)) image_urls =
      Ok (JList (pre ++ JDict d' :: post)) /\
    (forall s : str, dict_lookup (py "content") d = Some (JStr s) ->
       (Forall (fun c => isspace c = true) s ->
          dict_lookup (py "content") d' = Some (JList (image_block <$> image_urls))) /\
       (~ Forall (fun c => isspace c = true) s ->
          dict_lookup (py "content") d' =
            Some (JList (JDict [(py "type", JStr (py "text")); (py "text", JStr s)]
                         :: (image_block <$> image_urls))))) /\
    (forall blocks : list json, dict_lookup (py "content") d = Some (JList blocks) ->
       dict_lookup (py "content") d' = Some (JList (blocks ++ (image_block <$> image_urls)))) /\
    (forall k : str, k <> py "content" -> dict_lookup k d' = dict_lookup k d).
Proof.
  intros Hne Hd Hpost. eexists. split; [by apply compose_last_user|].
  rewrite dict_lookup_set_eq. unfold dict_get. split_and!.
  - intros s ->. simpl. split; intros Hs.
    + apply strip_nil_iff in Hs. rewrite Hs. by rewrite bool_decide_eq_true_2.
    + rewrite bool_decide_eq_false_2; [done|]. by rewrite strip_nil_iff.
  - by intros blocks ->.
  - intros k Hk. by apply dict_lookup_set_ne.
Qed.

(** ** Upstream relay *)

Lemma raise_for_status_ok (r : Response) :
  status_code r < 400 \/ 600 <= status_code r -> raise_for_status r = Ok ().
Proof.
  intros H. unfold raise_for_status.
  destruct (400 <=? status_code r) eqn:E1, (status_code r <? 600) eqn:E2; simpl; try done.
  apply Z.leb_le in E1. apply Z.ltb_lt in E2. lia.
Qed.

Lemma raise_for_status_error (r : Response) :
  400 <= status_code r < 600 ->
  raise_for_status r = Raise (HTTPError (Some r) (http_error_msg r)).
Proof.
  intros [H1 H2]. unfold raise_for_status.
  apply Z.leb_le in H1. apply Z.ltb_lt in H2. by rewrite H1, H2.
Qed.

Lemma gen_filter (chunks : list bytes) :
  gen chunks = filter (fun c => c <> []) chunks.
Proof.
  induction chunks as [|[|b c] rest IH]; simpl; [done | |].
  - by rewrite filter_cons_False by (by intros H).
  - by rewrite filter_cons_True, IH by done.
Qed.

Lemma gen_sublist (chunks : list bytes) : gen chunks `sublist_of` chunks.
Proof.
  induction chunks as [|[|b c] rest IH]; simpl; [done | |].
  - by apply sublist_cons.
  - by apply sublist_skip.
Qed.

Lemma gen_concat (chunks : list bytes) : concat (gen chunks) = concat chunks.
Proof.
  induction chunks as [|[|b c] rest IH]; simpl; [done | done |]. by rewrite IH.
Qed.

Lemma gen_nonempty (chunks : list bytes) :
  Forall (fun c => c <> []) chunks -> gen chunks = chunks.
Proof.
  induction 1 as [|[|b c] rest Hc _ IH]; simpl; [done | done |]. by rewrite IH.
Qed.

Lemma render_ok (content : json) :
  has_nonfinite content = false -> has_surrogate content = false -> render content = Ok ().
Proof. unfold render. by intros -> ->. Qed.



Lemma json_response_ok (status : Z) (content : json) :
  render content = Ok () -> json_response status content = Ok (JSONResponse status content).
Proof. unfold json_response. by intros ->. Qed.

Lemma json_response_raise (status : Z) (content : json) (e : exc) :
  render content = Raise e -> json_response status content = Raise e.
Proof. unfold json_response. by intros ->. Qed.

Lemma render_error_body (msg : str) :
  render (JDict [(py "error", JDict [(py "message", JStr msg)])]) =
  if encodable msg then Ok () else Raise UnicodeEncodeError.
Proof. unfold render. cbn. by destruct (encodable msg). Qed.

(** C1 (amended).  In buffered mode, when the upstream's status is outside
    400-599, its body decodes as JSON and the body, with [id] and [model]
    filled in, can be rendered (it holds no float that is not finite and no
    surrogate), the caller receives that body under status 200, whatever the
    upstream's status was. *)
Theorem buffered_reply_has_status_200
    (post : dict -> bool -> outcome raised Response) (uuid4_hex : str)
    (render_error_message : json -> str)
    (body payload : dict) (r : Response) (j : json) :
  want_stream body = false -> upstream_payload body = Ok payload ->
  post payload false = Ok r ->
  status_code r < 400 \/ 600 <= status_code r ->
  json_body r = Decoded j ->
  has_nonfinite (fill_id_model uuid4_hex body j) = false ->
  has_surrogate (fill_id_model uuid4_hex body j) = false ->
  chat_completions post uuid4_hex render_error_message body =
    JSONResponse 200 (fill_id_model uuid4_hex body j).
Proof.
  intros Hws Hpayload Hpost Hstatus Hj Hnf Hsur. unfold chat_completions, relay.
  rewrite Hpayload, Hws, Hpost, bind_Ok, raise_for_status_ok, bind_Ok by done.
  unfold response_json. rewrite Hj, bind_Ok.
  by rewrite json_response_ok by (by apply render_ok).
Qed.

(** C8.  In streamed mode, when the upstream's status is outside 400-599,
    the caller receives the upstream's chunks in the order received, none
    merged and none split: the chunks yielded are the upstream's non-empty
    chunks, a subsequence carrying the same bytes, and all of the chunks when
    none is empty. *)
Theorem streamed_chunks_forwarded_in_order
    (post : dict -> bool -> outcome raised Response) (uuid4_hex : str)
    (render_error_message : json -> str)
    (body payload : dict) (r : Response) :
  want_stream body = true -> upstream_payload body = Ok payload ->
  post payload true = Ok r ->
  status_code r < 400 \/ 600 <= status_code r ->
  exists (media_type : str) (yielded : list bytes),
    chat_completions post uuid4_hex render_error_message body =
      StreamingResponse 200 media_type yielded /\
    yielded = filter (fun c => c <> []) (iter_content r) /\
    yielded `sublist_of` iter_content r /\
    concat yielded = concat (iter_content r) /\
    (Forall (fun c => c <> []) (iter_content r) -> yielded = iter_content r).
Proof.
  intros Hws Hpayload Hpost Hstatus. eexists _, (gen (iter_content r)). split_and!.
  - unfold chat_completions, relay.
    by rewrite Hpayload, Hws, Hpost, bind_Ok, raise_for_status_ok, bind_Ok by done.
  - apply gen_filter.
  - apply gen_sublist.
  - apply gen_concat.
  - apply gen_nonempty.
Qed.

Lemma dict_get_set_ne (d : dict) (k k' : str) (v dflt : json) :
  k' <> k -> dict_get (dict_set d k v) k' dflt = dict_get d k' dflt.
Proof. intros H. unfold dict_get. by rewrite dict_lookup_set_ne. Qed.

(** C10.  A truthy [images] field is the image list, whatever [allImages]
    holds: replacing [allImages] by any value changes neither the selected
    descriptors nor the composed messages.  When [images] is absent or
    falsy, the selection is [allImages] if truthy and the empty list
    otherwise. *)
Theorem images_field_takes_precedence (body : dict) :
  (truthy (dict_get body (py "images") JNull) = true ->
     images_in body = dict_get body (py "images") JNull /\
     forall w : json,
       images_in (dict_set body (py "allImages") w) = images_in body /\
       messages_mm (dict_set body (py "allImages") w) = messages_mm body) /\
  (truthy (dict_get body (py "images") JNull) = false ->
     images_in body = py_or (dict_get body (py "allImages") JNull) (JList [])).
Proof.
  split; intros H.
  - assert (Hin : images_in body = dict_get body (py "images") JNull).
    { unfold images_in, py_or. by rewrite H, H. }
    assert (Hin' : forall w, images_in (dict_set body (py "allImages") w) = images_in body).
    { intros w. rewrite Hin. unfold images_in, py_or.
      rewrite dict_get_set_ne by (by vm_compute). by rewrite H, H. }
    split; [done|]. intros w. split; [done|].
    unfold messages_mm, messages_of. rewrite Hin'.
    by rewrite dict_get_set_ne by (by vm_compute).
  - unfold images_in. unfold py_or at 2. by rewrite H.
Qed.

(** * The claims at concrete inputs *)

(** C1 as stated fails: the upstream answers [201 Created], a successful
    status, and the caller receives status 200. *)
Lemma buffered_status_not_propagated :
  want_stream plain_body = false /\
  answers created plain_body false = Ok created /\
  status_code created = 201 /\
  raise_for_status created = Ok () /\
  reply_status (chat_completions (answers created) hex32 render_message plain_body)
    = Some 200 /\
  reply_status (chat_completions (answers created) hex32 render_message plain_body)
    <> Some (status_code created).
Proof. by vm_compute. Qed.

Lemma buffered_reply_has_status_200_witness :
  chat_completions (answers created) hex32 render_message plain_body =
    JSONResponse 200
      (fill_id_model hex32 plain_body
         (JDict [(py "object", JStr (py "chat.completion"))])).
Proof.
  apply (buffered_reply_has_status_200 (answers created) hex32 render_message
           plain_body plain_body created).
  - reflexivity.
  - vm_compute. reflexivity.
  - reflexivity.
  - left. simpl. lia.
  - reflexivity.
  - vm_compute. reflexivity.
  - vm_compute. reflexivity.
Defined.

(** C9 fails on the code.  The upstream answers 429 with the JSON body
    [{"error": "\ud800"}].  The claim gives the caller status 429 with that
    body.  The code decodes the body and builds the response inside the
    clause [except requests.HTTPError]; rendering raises
    [UnicodeEncodeError] there, the exception leaves the handler and no
    reply with status 429 is made. *)
Lemma unrenderable_error_body_escapes :
  want_stream plain_body = false /\
  upstream_payload plain_body = Ok plain_body /\
  answers too_many_surrogate plain_body false = Ok too_many_surrogate /\
  status_code too_many_surrogate = 429 /\
  json_body too_many_surrogate = Decoded (JDict [(py "error", JStr [55296%N])]) /\
  chat_completions (answers too_many_surrogate) hex32 render_message plain_body =
    Unhandled UnicodeEncodeError /\
  reply_status (chat_completions (answers too_many_surrogate) hex32 render_message plain_body)
    <> Some 429.
Proof. by vm_compute. Qed.

Lemma normalized_urls_unique_in_first_seen_order_witness :
  exists urls : list str,
    prepare_image_urls
      (JList [JStr (py "QUJD"); JStr url_U; JDict [(py "data", JStr (py "QUJD"))]]) = Ok urls /\
    NoDup urls /\
    (forall u : str, u ∈ urls <->
       u ∈ candidate_urls [JStr (py "QUJD"); JStr url_U; JDict [(py "data", JStr (py "QUJD"))]]) /\
    (forall (i j : nat) (x y : str),
       (i < j)%nat -> urls !! i = Some x -> urls !! j = Some y ->
       exists a : nat,
         candidate_urls [JStr (py "QUJD"); JStr url_U; JDict [(py "data", JStr (py "QUJD"))]]
           !! a = Some x /\
         forall b : nat,
           candidate_urls [JStr (py "QUJD"); JStr url_U; JDict [(py "data", JStr (py "QUJD"))]]
             !! b = Some y -> (a < b)%nat).
Proof.
  exact (normalized_urls_unique_in_first_seen_order
           [JStr (py "QUJD"); JStr url_U; JDict [(py "data", JStr (py "QUJD"))]]).
Defined.

Lemma string_descriptor_kept_or_wrapped_witness :
  prepare_image_urls (JList [JStr url_U]) = Ok [url_U] /\
  prepare_image_urls (JList [JStr (py "QUJD")]) = Ok [py "data:image/png;base64," ++ py "QUJD"].
Proof.
  split.
  - refine (proj1 (string_descriptor_kept_or_wrapped url_U) _).
    right. left. exists (py "host/u.png"). reflexivity.
  - refine (proj1 (proj2 (string_descriptor_kept_or_wrapped (py "QUJD"))) _).
    intros [[[k Hk] _] | [[k Hk] | [k Hk]]]; discriminate Hk.
Defined.

Lemma compose_appends_user_turn_witness :
  exists new_msg : dict,
    ensure_multimodal_message (JList [sys_msg]) [url_U] =
      Ok (JList ([sys_msg] ++ [JDict new_msg])) /\
    length ([sys_msg] ++ [JDict new_msg]) = 2%nat /\
    new_msg = [(py "role", JStr (py "user"));
               (py "content", JList (image_block <$> [url_U]))] /\
    length (image_block <$> [url_U]) = 1%nat /\
    forall (i : nat) (url : str), [url_U] !! i = Some url ->
      (image_block <$> [url_U]) !! i =
        Some (JDict [(py "type", JStr (py "image_url"));
                     (py "image_url", JDict [(py "url", JStr url)])]).
Proof.
  apply (compose_appends_user_turn [sys_msg] [url_U]).
  - discriminate.
  - repeat constructor.
Defined.

Lemma compose_rewrites_last_user_content_witness :
  exists d' : dict,
    ensure_multimodal_message (JList ([sys_msg] ++ describe_msg :: [])) [url_U] =
      Ok (JList ([sys_msg] ++ JDict d' :: [])) /\
    dict_lookup (py "content") d' =
      Some (JList (JDict [(py "type", JStr (py "text")); (py "text", JStr (py "describe"))]
                   :: (image_block <$> [url_U]))).
Proof.
  destruct (compose_rewrites_last_user_content [sys_msg] []
              [(py "role", JStr (py "user")); (py "content", JStr (py "describe"))]
              [url_U])
    as (d' & Hrun & Hstr & _).
  - discriminate.
  - reflexivity.
  - constructor.
  - exists d'. split; [exact Hrun|].
    apply (Hstr (py "describe")); [reflexivity|].
    intros H. apply Forall_cons_1 in H as [H _]. discriminate H.
Defined.

Lemma streamed_chunks_forwarded_in_order_witness :
  exists (media_type : str) (yielded : list bytes),
    chat_completions (answers abc_stream) hex32 render_message stream_body =
      StreamingResponse 200 media_type yielded /\
    yielded = filter (fun c => c <> []) [[x61]; [x62]; [x63]] /\
    yielded `sublist_of` [[x61]; [x62]; [x63]] /\
    concat yielded = concat [[x61]; [x62]; [x63]] /\
    (Forall (fun c => c <> []) [[x61]; [x62]; [x63]] -> yielded = [[x61]; [x62]; [x63]]).
Proof.
  apply (streamed_chunks_forwarded_in_order (answers abc_stream) hex32 render_message
           stream_body stream_body abc_stream).
  - reflexivity.
  - vm_compute. reflexivity.
  - reflexivity.
  - left. simpl. lia.
Defined.

Lemma images_field_takes_precedence_witness :
  images_in both_fields_body = JList [JStr (py "QUJD")] /\
  forall w : json,
    images_in (dict_set both_fields_body (py "allImages") w) = images_in both_fields_body /\
    messages_mm (dict_set both_fields_body (py "allImages") w) = messages_mm both_fields_body.
Proof.
  refine (proj1 (images_field_takes_precedence both_fields_body) _). reflexivity.
Defined.

Lemma compose_leaves_input_untouched_witness :
  exists (l' : Heap.loc) (h' : Heap.heap) (items' : list Heap.val) (i : nat),
    Heap.ensure_multimodal_message (Heap.VRef 1%nat) [url_U] describe_store
      = Ok (Heap.VRef l', h') /\
    describe_store `prefix_of` h' /\ (length describe_store <= l')%nat /\
    h' !! l' = Some (Heap.OList items') /\
    (forall j : nat, j <> i -> items' !! j = [Heap.VRef 0%nat] !! j) /\
    ((i = length [Heap.VRef 0%nat] /\ length items' = S (length [Heap.VRef 0%nat])) \/
     (length items' = length [Heap.VRef 0%nat] /\
      exists (lm lm' : Heap.loc) d d',
        [Heap.VRef 0%nat] !! i = Some (Heap.VRef lm) /\
        describe_store !! lm = Some (Heap.ODict d) /\
        items' !! i = Some (Heap.VRef lm') /\ (length describe_store <= lm')%nat /\
        h' !! lm' = Some (Heap.ODict d') /\
        forall k : str, k <> py "content" ->
          Heap.fields_lookup k d' = Heap.fields_lookup k d)).
Proof.
  apply (HeapFacts.compose_leaves_input_untouched describe_store 1%nat [Heap.VRef 0%nat] [url_U]).
  - discriminate.
  - reflexivity.
  - repeat constructor. eexists 0%nat, _. split; reflexivity.
Defined.

(** * Further checks at concrete inputs *)

(** A user text turn gets the image after its text. *)
Example compose_appends_to_user_text :
  ensure_multimodal_message (JList [describe_msg]) [url_U] =
    Ok (JList [JDict [(py "role", JStr (py "user"));
                      (py "content",
                       JList [JDict [(py "type", JStr (py "text"));
                                     (py "text", JStr (py "describe"))];
                              JDict [(py "type", JStr (py "image_url"));
                                     (py "image_url", JDict [(py "url", JStr url_U)])]])]]).
Proof. reflexivity. Qed.

(** A whitespace-only text is dropped; a no-break space counts as
    whitespace. *)
Example compose_drops_blank_text :
  ensure_multimodal_message
    (JList [JDict [(py "role", JStr (py "user")); (py "content", JStr [32; 160; 10]%N)]])
    [url_U]
  = Ok (JList [JDict [(py "role", JStr (py "user"));
                      (py "content", JList [image_block url_U])]]).
Proof. reflexivity. Qed.

(** Only the last user message is rewritten; a message that is not a dict
    is not even looked at when it precedes that message. *)
Example compose_touches_last_user_only :
  ensure_multimodal_message (JList [JInt 7; describe_msg; describe_msg; sys_msg]) [url_U] =
    Ok (JList [JInt 7; describe_msg;
               JDict [(py "role", JStr (py "user"));
                      (py "content", JList [text_block (py "describe"); image_block url_U])];
               sys_msg]).
Proof. reflexivity. Qed.

(** A message that is not a dict and follows the last user message makes
    the scan raise. *)
Example compose_raises_on_non_dict :
  ensure_multimodal_message (JList [describe_msg; JInt 7]) [url_U] = Raise AttributeError.
Proof. reflexivity. Qed.

(** The store model and the value model agree on the example. *)
Example store_model_agrees :
  match Heap.ensure_multimodal_message (Heap.VRef 1%nat) [url_U] describe_store with
  | Ok (r, h') => Some (Heap.denote 6 h' r)
  | Raise _ => None
  end
  = Some (match ensure_multimodal_message (JList [describe_msg]) [url_U] with
          | Ok j => Some j
          | Raise _ => None
          end).
Proof. reflexivity. Qed.

(** The input store is a prefix of the final one. *)
Example store_model_keeps_input :
  match Heap.ensure_multimodal_message (Heap.VRef 1%nat) [url_U] describe_store with
  | Ok (r, h') => Some (r, take 2 h')
  | Raise _ => None
  end
  = Some (Heap.VRef 8%nat, describe_store).
Proof. reflexivity. Qed.

(** A buffered body lacking [id] and [model] gets both. *)
Example buffered_fields_filled :
  chat_completions (answers created) hex32 render_message plain_body =
    JSONResponse 200
      (JDict [(py "object", JStr (py "chat.completion"));
              (py "id", JStr (py "chatcmpl-0123456789abcdef01234567"));
              (py "model", JStr (py "m"))]).
Proof. by vm_compute. Qed.

(** A body that has them is left as it is. *)
Example buffered_fields_kept :
  fill_id_model hex32 plain_body
    (JDict [(py "id", JStr (py "x")); (py "model", JNull)])
  = JDict [(py "id", JStr (py "x")); (py "model", JNull)].
Proof. reflexivity. Qed.

(** Three chunks in, the same three chunks out, under the default media
    type. *)
Example streamed_abc :
  chat_completions (answers abc_stream) hex32 render_message stream_body =
    StreamingResponse 200 (py "text/event-stream") [[x61]; [x62]; [x63]].
Proof. by vm_compute. Qed.

(** An empty chunk is not forwarded. *)
Example streamed_skips_empty_chunk : gen [[x61]; []; [x62]] = [[x61]; [x62]].
Proof. reflexivity. Qed.

(** A truthy [images] that is not iterable leaves the handler with an
    exception. *)
Example images_not_iterable :
  chat_completions (answers created) hex32 render_message [(py "images", JInt 5)] =
    Unhandled TypeError.
Proof. by vm_compute. Qed.

(** A successful answer whose body holds a lone surrogate cannot be
    rendered: the [try] catches the exception and the caller gets 502. *)
Example buffered_surrogate_body_is_502 :
  chat_completions (answers ok_surrogate) hex32 render_message plain_body =
    JSONResponse 502
      (JDict [(py "error",
               JDict [(py "message",
                       JStr (py "'utf-8' codec can't encode character: surrogates not allowed"))])]).
Proof. by vm_compute. Qed.

(** The same for a body that holds [inf]. *)
Example buffered_overflow_body_is_502 :
  chat_completions (answers ok_overflow) hex32 render_message plain_body =
    JSONResponse 502
      (JDict [(py "error",
               JDict [(py "message",
                       JStr (py "Out of range float values are not JSON compliant"))])]).
Proof. by vm_compute. Qed.

(** An upstream error with a body that can be rendered reaches the caller
    with the upstream's status. *)
Example too_many_is_429 :
  chat_completions (answers too_many) hex32 render_message plain_body =
    JSONResponse 429 (JDict [(py "error", JDict [(py "message", JStr (py "slow down"))])]).
Proof. by vm_compute. Qed.

(** The surrogates are the code points U+D800 to U+DFFF; a surrogate in a
    key counts, and a float that is not finite is reported first. *)
Example render_at_the_bounds :
  render (JStr [55295%N]) = Ok () /\
  render (JStr [55296%N]) = Raise UnicodeEncodeError /\
  render (JStr [57343%N]) = Raise UnicodeEncodeError /\
  render (JStr [57344%N]) = Ok () /\
  render (JDict [([56832%N], JNull)]) = Raise UnicodeEncodeError /\
  render (JList [JStr [55296%N]; JDict [(py "x", JList [JNonFinite NaN])]]) = Raise ValueError /\
  render (JList [JNull; JBool true; JInt 1; JFloat 1 (-1); JStr (py "x"); JDict []]) = Ok ().
Proof. by vm_compute. Qed.

(** The payload keeps every field of the body and replaces the messages. *)
Example payload_of_both_fields :
  upstream_payload both_fields_body =
    Ok [(py "messages",
         JList [JDict [(py "role", JStr (py "user"));
                       (py "content",
                        JList [text_block (py "describe");
                               image_block (py "data:image/png;base64,QUJD")])]]);
        (py "images", JList [JStr (py "QUJD")]);
        (py "allImages", JList [JStr url_U])].
Proof. by vm_compute. Qed.

(** * Further properties of the code *)

(** ** Image normalizer *)

Lemma foldl_collect_url (acc : list str) (xs : list json) :
  foldl collect_url acc xs = acc ++ candidate_urls xs.
Proof.
  revert acc. induction xs as [|x xs IH]; intros acc; simpl.
  - by rewrite app_nil_r.
  - unfold candidate_urls. simpl. rewrite IH, (IH (collect_url [] x)).
    by rewrite (collect_url_app acc), app_assoc.
Qed.

Lemma candidate_urls_cons (x : json) (xs : list json) :
  candidate_urls (x :: xs) = collect_url [] x ++ candidate_urls xs.
Proof. unfold candidate_urls at 1. simpl. apply foldl_collect_url. Qed.

Lemma wrapped_url_form (x : str) : url_form (to_data_url_from_base64 x default_mime).
Proof.
  left. split.
  - by eexists.
  - exists (py "data:image/png"), x. reflexivity.
Qed.

Lemma collect_url_form (x : json) : Forall url_form (collect_url [] x).
Proof.
  destruct x as [| | | | |s|l|d]; unfold collect_url; try constructor.
  - destruct (looks_data_url (JStr s) || is_http_url (JStr s)) eqn:E; rewrite app_nil_l.
    + constructor; [by apply url_form_iff | constructor].
    + constructor; [apply wrapped_url_form | constructor].
  - destruct (dict_get d (py "data") (JStr [])) as [| | | | |data|l|d']; try constructor.
    destruct (truthy (JStr data)); [|constructor]. rewrite app_nil_l.
    destruct (looks_data_url (JStr data)) eqn:E.
    + constructor; [|constructor]. apply url_form_iff. by rewrite E.
    + constructor; [apply wrapped_url_form | constructor].
Qed.

Lemma candidate_urls_form (xs : list json) : Forall url_form (candidate_urls xs).
Proof.
  induction xs as [|x xs IH]; [constructor|].
  rewrite candidate_urls_cons. apply Forall_app. split; [apply collect_url_form | done].
Qed.

Lemma prepare_image_urls_inv (images_in : json) (urls : list str) :
  prepare_image_urls images_in = Ok urls ->
  exists xs : list json,
    py_list (py_or images_in (JList [])) = Ok xs /\ urls = dedupe (candidate_urls xs).
Proof.
  unfold prepare_image_urls. destruct (py_list _) as [xs|e]; [|done].
  intros [= <-]. by exists xs.
Qed.

Lemma dedupe_Forall (P : str -> Prop) (urls : list str) :
  Forall P urls -> Forall P (dedupe urls).
Proof.
  intros H. apply Forall_forall. intros u Hu. apply (proj1 (dedupe_elem_of _ _)) in Hu.
  exact (proj1 (Forall_forall _ _) H u Hu).
Qed.

(** X1.  Whatever the normalizer returns is a list of URLs: each entry
    starts with [data:] and contains [;base64,], or starts with [http://] or
    [https://]. *)
Theorem normalized_urls_have_url_form (images_in : json) (urls : list str) :
  prepare_image_urls images_in = Ok urls -> Forall url_form urls.
Proof.
  intros (xs & _ & ->)%prepare_image_urls_inv.
  apply dedupe_Forall, candidate_urls_form.
Qed.

Lemma dedupe_NoDup_id (urls : list str) : NoDup urls -> dedupe urls = urls.
Proof.
  induction urls as [|u urls IH] using rev_ind; [done|].
  intros [Hurls [Hu _]]%NoDup_app. rewrite dedupe_snoc, IH by done.
  rewrite bool_decide_eq_false_2; [done|].
  intros Hin. apply (Hu u Hin). by apply list_elem_of_singleton.
Qed.

Lemma string_url_form (u : str) : url_form u -> string_url u = u.
Proof. intros H%url_form_iff. unfold string_url. by rewrite H. Qed.

Lemma candidate_urls_strings (l : list str) :
  candidate_urls (JStr <$> l) = string_url <$> l.
Proof.
  induction l as [|u l IH]; [done|].
  rewrite !fmap_cons, candidate_urls_cons, collect_url_string, IH. done.
Qed.

(** X2.  Normalizing is idempotent: the URLs the normalizer returned, given
    back to it as plain strings, come out unchanged. *)
Theorem normalizing_again_changes_nothing (images_in : json) (urls : list str) :
  prepare_image_urls images_in = Ok urls ->
  prepare_image_urls (JList (JStr <$> urls)) = Ok urls.
Proof.
  intros (xs & _ & ->)%prepare_image_urls_inv.
  pose proof (dedupe_Forall _ _ (candidate_urls_form xs)) as Hform.
  rewrite prepare_image_urls_list, candidate_urls_strings.
  assert (Hid : string_url <$> dedupe (candidate_urls xs) = dedupe (candidate_urls xs)).
  { induction Hform as [|u l Hu _ IH]; [done|].
    by rewrite fmap_cons, string_url_form, IH. }
  rewrite Hid, dedupe_NoDup_id; [done | apply dedupe_NoDup].
Qed.

Lemma data_url_form_iff (s : str) : looks_data_url (JStr s) = true <-> data_url_form s.
Proof.
  unfold data_url_form, looks_data_url.
  by rewrite andb_true_iff, startswith_spec, contains_spec.
Qed.

Lemma prepare_image_urls_one (x : json) :
  prepare_image_urls (JList [x]) = Ok (collect_url [] x).
Proof.
  rewrite prepare_image_urls_list.
  change (candidate_urls [x]) with (collect_url [] x).
  pose proof (collect_url_app [] x) as _.
  destruct x as [| | | | |s|l|d]; unfold collect_url; try done.
  - destruct (_ || _); by rewrite app_nil_l, dedupe_singleton.
  - destruct (dict_get d (py "data") (JStr [])); try done.
    destruct (truthy _); [|done]. by rewrite app_nil_l, dedupe_singleton.
Qed.

(** X3.  A dict descriptor is read through its [data] field only: a
    non-empty string there is kept when it is in data-URL form and wrapped as
    [data:image/png;base64,<data>] otherwise, an http(s) URL included; a
    missing, empty or non-string [data] makes the descriptor contribute
    nothing. *)
Theorem dict_descriptor_normalized (d : dict) :
  (forall s : str, dict_lookup (py "data") d = Some (JStr s) -> s <> [] ->
     (data_url_form s -> prepare_image_urls (JList [JDict d]) = Ok [s]) /\
     (~ data_url_form s ->
        prepare_image_urls (JList [JDict d]) = Ok [py "data:image/png;base64," ++ s])) /\
  (dict_lookup (py "data") d = None \/
   dict_lookup (py "data") d = Some (JStr []) \/
   (exists v : json, dict_lookup (py "data") d = Some v /\ forall s : str, v <> JStr s) ->
   prepare_image_urls (JList [JDict d]) = Ok []).
Proof.
  split.
  - intros s Hs Hne. rewrite prepare_image_urls_one. unfold collect_url, dict_get.
    rewrite Hs. simpl default. unfold truthy. rewrite bool_decide_eq_false_2 by done.
    simpl negb. cbv iota. rewrite app_nil_l. split; intros H.
    + apply data_url_form_iff in H. by rewrite H.
    + destruct (looks_data_url (JStr s)) eqn:E; [|done]. by apply data_url_form_iff in E.
  - intros H. rewrite prepare_image_urls_one. unfold collect_url, dict_get.
    destruct H as [-> | [-> | (v & -> & Hv)]]; try done.
    destruct v; try done. by destruct (Hv s).
Qed.

Lemma collect_url_ignored (x : json) : is_descriptor x = false -> collect_url [] x = [].
Proof. by destruct x. Qed.

Lemma candidate_urls_filter (xs : list json) :
  candidate_urls (filter (fun x => is_descriptor x = true) xs) = candidate_urls xs.
Proof.
  induction xs as [|x xs IH]; [done|].
  rewrite candidate_urls_cons. destruct (is_descriptor x) eqn:E.
  - rewrite filter_cons_True by done. by rewrite candidate_urls_cons, IH.
  - rewrite filter_cons_False by (by rewrite E). by rewrite collect_url_ignored, IH.
Qed.

(** X4.  Entries that are neither strings nor dicts (null, booleans,
    numbers, nested lists) are skipped: taking them out of the input list
    leaves the result as it is. *)
Theorem other_shapes_are_skipped (xs : list json) :
  prepare_image_urls (JList (filter (fun x => is_descriptor x = true) xs)) =
  prepare_image_urls (JList xs).
Proof. by rewrite !prepare_image_urls_list, candidate_urls_filter. Qed.

(** X5.  The normalizer raises exactly on a truthy value that is not
    iterable, a number other than zero or [True], and then it raises
    [TypeError]; on every other value it returns, and on a falsy value
    ([None], [False], zero, an empty string, list or dict) it returns the
    empty list. *)
Theorem normalizer_raises_only_on_scalars (images_in : json) :
  (truthy_scalar images_in = true -> prepare_image_urls images_in = Raise TypeError) /\
  (truthy_scalar images_in = false ->
     exists urls : list str, prepare_image_urls images_in = Ok urls) /\
  (truthy images_in = false -> prepare_image_urls images_in = Ok []).
Proof.
  unfold prepare_image_urls, py_or. split_and!.
  - destruct images_in; simpl; try done; by intros ->.
  - destruct images_in as [|b|n|m e|f|s|l|d]; simpl; intros H; try done; try by eexists.
    + by rewrite H; eexists.
    + rewrite H. by eexists.
    + rewrite H. by eexists.
    + destruct (negb _); by eexists.
    + destruct l; by eexists.
    + destruct d; by eexists.
  - by intros ->.
Qed.

Lemma length_collect_url (x : json) : (length (collect_url [] x) <= 1)%nat.
Proof.
  destruct x as [| | | | |s|l|d]; unfold collect_url; simpl; try lia.
  - destruct (_ || _); simpl; lia.
  - destruct (dict_get d (py "data") (JStr [])); simpl; try lia.
    destruct (negb _); simpl; lia.
Qed.

Lemma length_candidate_urls (xs : list json) :
  (length (candidate_urls xs) <= length xs)%nat.
Proof.
  induction xs as [|x xs IH]; [done|].
  rewrite candidate_urls_cons, length_app. pose proof (length_collect_url x). simpl. lia.
Qed.

Lemma length_dedupe (urls : list str) : (length (dedupe urls) <= length urls)%nat.
Proof.
  induction urls as [|u urls IH] using rev_ind; [done|].
  rewrite dedupe_snoc, !length_app. case_bool_decide; simpl; lia.
Qed.

(** X6.  A list of descriptors yields at most one URL per descriptor. *)
Theorem at_most_one_url_per_descriptor (xs : list json) (urls : list str) :
  prepare_image_urls (JList xs) = Ok urls -> (length urls <= length xs)%nat.
Proof.
  rewrite prepare_image_urls_list. intros [= <-].
  pose proof (length_dedupe (candidate_urls xs)). pose proof (length_candidate_urls xs). lia.
Qed.

Lemma string_url_char (c : N) : string_url [c] = py "data:image/png;base64," ++ [c].
Proof.
  unfold string_url.
  destruct (looks_data_url (JStr [c]) || is_http_url (JStr [c])) eqn:E; [|done].
  apply url_form_iff in E.
  destruct E as [[[k Hk] _] | [[k Hk] | [k Hk]]]; discriminate Hk.
Qed.

(** X7.  A value given bare instead of inside a list is iterated, not read
    as one descriptor: of a string every single character is wrapped as a
    payload of its own, and of a dict every key is normalized as if it were a
    string descriptor, the values being ignored. *)
Theorem bare_value_is_iterated :
  (forall s : str,
     prepare_image_urls (JStr s) =
       Ok (dedupe ((fun c => py "data:image/png;base64," ++ [c]) <$> s))) /\
  (forall d : dict,
     prepare_image_urls (JDict d) = Ok (dedupe (string_url <$> d.*1))).
Proof.
  split.
  - intros s. unfold prepare_image_urls, py_or.
    destruct s as [|c s]; [done|].
    change (truthy (JStr (c :: s))) with true. cbv iota. unfold py_list.
    rewrite bind_Ok. unfold mret, outcome_ret. do 2 f_equal.
    change ((fun c0 : N => JStr [c0]) <$> (c :: s))
      with ((JStr ∘ (fun c0 : N => [c0])) <$> (c :: s)).
    rewrite list_fmap_compose, candidate_urls_strings, <- list_fmap_compose.
    apply list_fmap_ext. intros i x _. apply string_url_char.
  - intros d. unfold prepare_image_urls, py_or.
    destruct d as [|kv d]; [done|].
    change (truthy (JDict (kv :: d))) with true. cbv iota. unfold py_list.
    rewrite bind_Ok. unfold mret, outcome_ret. do 2 f_equal.
    change ((fun kv0 : str * json => JStr kv0.1) <$> (kv :: d))
      with ((JStr ∘ fst) <$> (kv :: d)).
    rewrite list_fmap_compose. apply candidate_urls_strings.
Qed.

(** ** Message composer *)

Lemma find_last_user_inv (ms : list json) (n : nat) (r : option nat) :
  (n <= length ms)%nat -> find_last_user (JList ms) n = Ok r ->
  match r with
  | None => forall i : nat, (i < n)%nat -> exists m, ms !! i = Some m /\ other_message m
  | Some k =>
      (k < n)%nat /\ (exists m, ms !! k = Some m /\ has_role_user m = true) /\
      forall i : nat, (k < i < n)%nat -> exists m, ms !! i = Some m /\ other_message m
  end.
Proof.
  induction n as [|n IH]; intros Hn H.
  - injection H as <-. intros i Hi. lia.
  - destruct (lookup_lt_is_Some_2 ms n) as [m Hm]; [lia|].
    rewrite find_last_user_S in H. unfold py_getitem in H. rewrite Hm, bind_Ok in H.
    destruct m as [| | | | | | |d]; try done. unfold py_get in H. rewrite bind_Ok in H.
    destruct (py_eq_str (dict_get d (py "role") JNull) (py "user")) eqn:E.
    + injection H as <-. split_and!; [lia | by exists (JDict d) | intros i Hi; lia].
    + specialize (IH ltac:(lia) H). destruct r as [k|].
      * destruct IH as (Hk & Hu & Ho). split_and!; [lia | done |].
        intros i Hi. destruct (decide (i = n)) as [->|]; [by exists (JDict d) | apply Ho; lia].
      * intros i Hi. destruct (decide (i = n)) as [->|]; [by exists (JDict d) | apply IH; lia].
Qed.

Lemma find_last_user_raise (ms : list json) (n : nat) (e : exc) :
  (n <= length ms)%nat -> find_last_user (JList ms) n = Raise e ->
  e = AttributeError /\
  exists (i : nat) (x : json),
    (i < n)%nat /\ ms !! i = Some x /\ is_message x = false /\
    forall j : nat, (i < j < n)%nat -> exists m, ms !! j = Some m /\ other_message m.
Proof.
  induction n as [|n IH]; intros Hn H; [done|].
  destruct (lookup_lt_is_Some_2 ms n) as [m Hm]; [lia|].
  rewrite find_last_user_S in H. unfold py_getitem in H. rewrite Hm, bind_Ok in H.
  destruct (is_message m) eqn:Em.
  - destruct m as [| | | | | | |d]; try done. unfold py_get in H. rewrite bind_Ok in H.
    destruct (py_eq_str (dict_get d (py "role") JNull) (py "user")) eqn:E; [done|].
    destruct (IH ltac:(lia) H) as (-> & i & x & Hi & Hx & Hnot & Ho).
    split; [done|]. exists i, x. split_and!; [lia | done | done |].
    intros j Hj. destruct (decide (j = n)) as [->|]; [by exists (JDict d) | apply Ho; lia].
  - assert (e = AttributeError) as -> by (destruct m; try done; by injection H).
    split; [done|]. exists n, m. split_and!; [lia | done | done | intros j Hj; lia].
Qed.

Lemma find_last_user_stuck (ms : list json) (k n : nat) (x : json) :
  (k < n)%nat -> ms !! k = Some x -> is_message x = false ->
  (forall i : nat, (k < i < n)%nat -> exists m, ms !! i = Some m /\ other_message m) ->
  find_last_user (JList ms) n = Raise AttributeError.
Proof.
  induction n as [|n IH]; intros Hk Hx Hnot H; [lia|].
  rewrite find_last_user_S. unfold py_getitem.
  destruct (decide (n = k)) as [->|Hne].
  - rewrite Hx, bind_Ok. by destruct x.
  - destruct (H n) as (m' & Hm' & Hdict & Hrole'); [lia|].
    rewrite Hm', bind_Ok. destruct m'; try done.
    unfold py_get. rewrite bind_Ok. simpl in Hrole'. rewrite Hrole'.
    apply IH; [lia | done | done |]. intros i Hi. apply H. lia.
Qed.

(** The messages after position [k], all of another role, split the list. *)
Lemma split_at_last (ms : list json) (k : nat) (m : json) :
  ms !! k = Some m ->
  (forall i : nat, (k < i < length ms)%nat -> exists m', ms !! i = Some m' /\ other_message m') ->
  ms = take k ms ++ m :: drop (S k) ms /\ length (take k ms) = k /\
  Forall other_message (drop (S k) ms).
Proof.
  intros Hm Ho. pose proof (lookup_lt_Some _ _ _ Hm) as Hk. split_and!.
  - by rewrite take_drop_middle.
  - rewrite length_take. lia.
  - apply Forall_lookup. intros i x Hx. rewrite lookup_drop in Hx.
    destruct (Ho (S k + i)%nat) as (m' & Hm' & Hother).
    + apply lookup_lt_Some in Hx. lia.
    + congruence.
Qed.

Lemma Forall_other_of_lookup (ms : list json) :
  (forall i : nat, (i < length ms)%nat -> exists m, ms !! i = Some m /\ other_message m) ->
  Forall other_message ms.
Proof.
  intros H. apply Forall_lookup. intros i x Hx.
  destruct (H i) as (m & Hm & Ho); [by eapply lookup_lt_Some | congruence].
Qed.

(** The two ways a call with images returns. *)
Lemma compose_inv (ms : list json) (image_urls : list str) (j : json) :
  image_urls <> [] -> ensure_multimodal_message (JList ms) image_urls = Ok j ->
  (Forall other_message ms /\
   j = JList (ms ++ [JDict [(py "role", JStr (py "user"));
                            (py "content", JList (image_block <$> image_urls))]])) \/
  (exists (pre post : list json) (d : dict),
     ms = pre ++ JDict d :: post /\ has_role_user (JDict d) = true /\
     Forall other_message post /\
     j = JList (pre ++
           JDict (dict_set d (py "content")
                    (merged_content (dict_get d (py "content") (JStr []))
                                    (image_block <$> image_urls)))
           :: post)).
Proof.
  intros Hne H.
  destruct (find_last_user (JList ms) (length ms)) as [r|e] eqn:Hscan.
  - apply find_last_user_inv in Hscan; [|lia]. destruct r as [k|].
    + destruct Hscan as (Hk & (m & Hm & Hu) & Ho).
      destruct (split_at_last ms k m Hm Ho) as (Hsplit & Hlen & Hpost).
      destruct m as [| | | | | | |d]; try done.
      right. exists (take k ms), (drop (S k) ms), d. split_and!; [done | done | done |].
      rewrite Hsplit in H at 1. rewrite compose_last_user in H by done. by injection H.
    + left. pose proof (Forall_other_of_lookup ms Hscan) as Hall. split; [done|].
      rewrite compose_no_user in H by done. by injection H.
  - exfalso. unfold ensure_multimodal_message in H.
    rewrite bool_decide_eq_false_2 in H by done. simpl py_len in H.
    by rewrite bind_Ok, Hscan in H.
Qed.

(** X8.  Content of the last user message that is neither a string nor a
    list (null, a number, a boolean, a dict) is discarded and replaced by the
    image blocks alone; a message without a [content] field gets one holding
    the image blocks. *)
Theorem odd_content_is_replaced
    (pre post : list json) (d : dict) (image_urls : list str) :
  image_urls <> [] -> has_role_user (JDict d) = true -> Forall other_message post ->
  dict_lookup (py "content") d = None \/
  (exists v : json, dict_lookup (py "content") d = Some v /\
     (forall s : str, v <> JStr s) /\ (forall l : list json, v <> JList l)) ->
  ensure_multimodal_message (JList (pre ++ JDict d :: post)) image_urls =
    Ok (JList (pre ++
          JDict (dict_set d (py "content") (JList (image_block <$> image_urls))) :: post)).
Proof.
  intros Hne Hd Hpost Hc. rewrite compose_last_user by done. do 4 f_equal.
  unfold dict_get. destruct Hc as [-> | (v & -> & Hs & Hl)]; [done|].
  destruct v; try done; [by destruct (Hs s) | by destruct (Hl items)].
Qed.

Lemma existsb_other (ms : list json) :
  Forall other_message ms -> existsb has_role_user ms = false.
Proof. induction 1 as [|m ms [_ Hm] _ IH]; [done|]. simpl. by rewrite Hm, IH. Qed.

Lemma existsb_user (pre post : list json) (m : json) :
  has_role_user m = true -> existsb has_role_user (pre ++ m :: post) = true.
Proof. intros H. rewrite existsb_app. simpl. rewrite H. by rewrite orb_true_r. Qed.

Lemma compose_raise_inv (ms : list json) (image_urls : list str) (e : exc) :
  image_urls <> [] -> ensure_multimodal_message (JList ms) image_urls = Raise e ->
  find_last_user (JList ms) (length ms) = Raise e.
Proof.
  intros Hne H.
  destruct (find_last_user (JList ms) (length ms)) as [r|e'] eqn:Hscan.
  - exfalso. apply find_last_user_inv in Hscan; [|lia]. destruct r as [k|].
    + destruct Hscan as (Hk & (m & Hm & Hu) & Ho).
      destruct (split_at_last ms k m Hm Ho) as (Hsplit & Hlen & Hpost).
      destruct m as [| | | | | | |d]; try done.
      rewrite Hsplit in H. by rewrite compose_last_user in H by done.
    + by rewrite compose_no_user in H by (done || by apply Forall_other_of_lookup).
  - unfold ensure_multimodal_message in H.
    rewrite bool_decide_eq_false_2 in H by done. simpl py_len in H.
    rewrite bind_Ok, Hscan in H. by injection H as ->.
Qed.

(** X9.  On a list whose messages are all dicts the composer never raises;
    it returns a list of dicts again, of the same length when some message has
    role [user] and one longer when none has. *)
Theorem composer_total_on_dicts (ms : list json) (image_urls : list str) :
  image_urls <> [] -> Forall (fun m => is_message m = true) ms ->
  exists ms' : list json,
    ensure_multimodal_message (JList ms) image_urls = Ok (JList ms') /\
    Forall (fun m => is_message m = true) ms' /\
    length ms' = if existsb has_role_user ms then length ms else S (length ms).
Proof.
  intros Hne Hms.
  destruct (ensure_multimodal_message (JList ms) image_urls) as [j|e] eqn:H.
  - destruct (compose_inv _ _ _ Hne H) as [[Hall ->] | (pre & post & d & -> & Hd & Hpost & ->)].
    + eexists. split_and!; [done | |].
      * apply Forall_app. split; [done | by constructor].
      * rewrite existsb_other by done. rewrite length_app. simpl. lia.
    + eexists. split_and!; [done | |].
      * apply Forall_app in Hms as [Hpre Hrest]. apply Forall_cons in Hrest as [_ Hrest].
        apply Forall_app. split; [done|]. by constructor.
      * rewrite existsb_user by done. rewrite !length_app. done.
  - exfalso. apply compose_raise_inv in H; [|done].
    apply find_last_user_raise in H as (_ & i & x & Hi & Hx & Hnot & _); [|lia].
    pose proof (Forall_lookup_1 _ _ _ _ Hms Hx) as Hdict. simpl in Hdict. congruence.
Qed.

(** X10.  With images to attach, the composer raises exactly when the scan
    from the end meets a message that is not a dict before it meets a user
    message, that is, when a non-dict entry is followed only by dict messages
    of other roles; the exception is then [AttributeError], and no other
    exception is raised on a list. *)
Theorem composer_raises_iff (ms : list json) (image_urls : list str) :
  image_urls <> [] ->
  (forall e : exc, ensure_multimodal_message (JList ms) image_urls = Raise e ->
     e = AttributeError) /\
  (ensure_multimodal_message (JList ms) image_urls = Raise AttributeError <->
   exists (pre post : list json) (x : json),
     ms = pre ++ x :: post /\ is_message x = false /\ Forall other_message post).
Proof.
  intros Hne. split; [|split].
  - intros e H%compose_raise_inv; [|done].
    by apply find_last_user_raise in H as [-> _].
  - intros H%compose_raise_inv; [|done].
    apply find_last_user_raise in H as (_ & i & x & Hi & Hx & Hnot & Ho); [|lia].
    destruct (split_at_last ms i x Hx Ho) as (Hsplit & _ & Hpost).
    by exists (take i ms), (drop (S i) ms), x.
  - intros (pre & post & x & -> & Hnot & Hpost).
    unfold ensure_multimodal_message. rewrite bool_decide_eq_false_2 by done.
    simpl py_len. rewrite bind_Ok.
    rewrite (find_last_user_stuck _ (length pre) _ x); [done | | | done |].
    + rewrite length_app. simpl. lia.
    + by apply list_lookup_middle.
    + intros i Hi. rewrite length_app in Hi. simpl in Hi.
      rewrite lookup_app_r by lia.
      destruct (i - length pre)%nat as [|j] eqn:Hj; [lia|]. simpl.
      apply Forall_other_lookup; [done | lia].
Qed.

Lemma merged_content_twice (c : json) (a b : list json) :
  merged_content (merged_content c a) b = merged_content c (a ++ b).
Proof.
  destruct c as [| | | | |s|l|d]; simpl; try done.
  - destruct (negb _); simpl; by rewrite ?app_assoc.
  - by rewrite app_assoc.
Qed.

Lemma dict_set_twice (d : dict) (k : str) (a b : json) :
  dict_set (dict_set d k a) k b = dict_set d k b.
Proof.
  induction d as [|[k' v] d IH]; simpl.
  - by rewrite bool_decide_eq_true_2.
  - case_bool_decide as Hk; simpl.
    + by rewrite bool_decide_eq_true_2.
    + rewrite bool_decide_eq_false_2 by done. by rewrite IH.
Qed.

Lemma dict_get_set_eq (d : dict) (k : str) (v dflt : json) :
  dict_get (dict_set d k v) k dflt = v.
Proof. unfold dict_get. by rewrite dict_lookup_set_eq. Qed.

Lemma has_role_user_set_content (d : dict) (v : json) :
  has_role_user (JDict (dict_set d (py "content") v)) = has_role_user (JDict d).
Proof. simpl. by rewrite dict_get_set_ne by (by vm_compute). Qed.

(** X11.  Attaching images in two calls gives what one call with both lists
    gives: composing the result of a call once more with [more] equals
    composing the original messages with [image_urls ++ more]. *)
Theorem composing_twice_accumulates
    (ms : list json) (image_urls more : list str) (j : json) :
  ensure_multimodal_message (JList ms) image_urls = Ok j ->
  ensure_multimodal_message j more =
  ensure_multimodal_message (JList ms) (image_urls ++ more).
Proof.
  intros H. destruct (decide (image_urls = [])) as [->|Hne].
  { by injection H as <-. }
  destruct (decide (more = [])) as [->|Hmore].
  { rewrite app_nil_r, H. reflexivity. }
  assert (Hboth : image_urls ++ more <> []) by (by destruct image_urls).
  destruct (compose_inv _ _ _ Hne H) as [[Hall ->] | (pre & post & d & -> & Hd & Hpost & ->)].
  - rewrite (compose_no_user ms (image_urls ++ more)) by done.
    rewrite (compose_last_user ms []) by done.
    by rewrite fmap_app.
  - rewrite (compose_last_user pre post d (image_urls ++ more)) by done.
    rewrite (compose_last_user pre post (dict_set d (py "content") _) more)
      by (done || by rewrite has_role_user_set_content).
    rewrite dict_get_set_eq.
    by rewrite dict_set_twice, merged_content_twice, fmap_app.
Qed.

Lemma merged_content_ends_with (c : json) (img_blocks : list json) :
  exists blocks : list json, merged_content c img_blocks = JList (blocks ++ img_blocks).
Proof.
  destruct c as [| | | | |s|l|d]; simpl; try by exists [].
  - destruct (negb _); by eexists.
  - by exists l.
Qed.

(** X12.  After a call with at least one image that returns, the result has
    a last user message, and its content is a list, never a bare string, that
    ends with one [image_url] block per URL, in order. *)
Theorem result_has_user_turn_with_images
    (ms : list json) (image_urls : list str) (j : json) :
  image_urls <> [] -> ensure_multimodal_message (JList ms) image_urls = Ok j ->
  exists (ms' : list json) (i : nat) (d' : dict) (blocks : list json),
    j = JList ms' /\
    find_last_user (JList ms') (length ms') = Ok (Some i) /\
    ms' !! i = Some (JDict d') /\
    dict_lookup (py "content") d' = Some (JList (blocks ++ (image_block <$> image_urls))).
Proof.
  intros Hne H.
  destruct (compose_inv _ _ _ Hne H) as [[Hall ->] | (pre & post & d & -> & Hd & Hpost & ->)].
  - eexists _, (length ms), _, []. split_and!; [done | | by apply list_lookup_middle | done].
    eapply find_last_user_found;
      [rewrite length_app; simpl; lia | by apply list_lookup_middle | done |].
    intros i Hi. rewrite length_app in Hi. simpl in Hi. lia.
  - destruct (merged_content_ends_with (dict_get d (py "content") (JStr []))
                (image_block <$> image_urls)) as [blocks Hblocks].
    eexists _, (length pre), _, blocks.
    split_and!; [done | | by apply list_lookup_middle | by rewrite dict_lookup_set_eq, Hblocks].
    eapply find_last_user_found;
      [rewrite length_app; simpl; lia | by apply list_lookup_middle
      | by rewrite has_role_user_set_content |].
    intros i Hi. rewrite length_app in Hi. simpl in Hi.
    rewrite lookup_app_r by lia.
    destruct (i - length pre)%nat as [|k] eqn:Hk; [lia|]. simpl.
    apply Forall_other_lookup; [done | lia].
Qed.

(** ** Upstream relay *)

Lemma dict_lookup_app (d : dict) (k k0 : str) (v : json) :
  dict_lookup k (d ++ [(k0, v)]) =
    match dict_lookup k d with
    | Some x => Some x
    | None => if bool_decide (k0 = k) then Some v else None
    end.
Proof.
  induction d as [|[k' v'] d IH]; simpl; [done|].
  destruct (bool_decide (k' = k)); [done | exact IH].
Qed.

Lemma dict_lookup_setdefault (d : dict) (k k0 : str) (v : json) :
  dict_lookup k (dict_setdefault d k0 v) =
    match dict_lookup k d with
    | Some x => Some x
    | None => if bool_decide (k0 = k) then Some v else None
    end.
Proof.
  unfold dict_setdefault. destruct (dict_lookup k0 d) as [x|] eqn:E.
  - destruct (dict_lookup k d) eqn:E'; [done|].
    case_bool_decide; [congruence | done].
  - apply dict_lookup_app.
Qed.

Lemma dict_setdefault_present (d : dict) (k : str) (v x : json) :
  dict_lookup k d = Some x -> dict_setdefault d k v = d.
Proof. intros H. unfold dict_setdefault. by rewrite H. Qed.

(** X13.  Filling a decoded body that is a dict keeps every field it has,
    whatever its value, and makes [id] and [model] present: a missing [id]
    becomes [chatcmpl-] followed by the first 24 characters of the random
    hex string, a missing [model] becomes the request's [model] if that is
    truthy and ["local"] otherwise.  A body that is not a dict is returned as
    it is, and filling twice is filling once. *)
Theorem filled_body_has_id_and_model (uuid4_hex : str) (body : dict) (j : json) :
  (forall d : dict, j = JDict d ->
     exists d' : dict,
       fill_id_model uuid4_hex body j = JDict d' /\
       (forall (k : str) (v : json), dict_lookup k d = Some v -> dict_lookup k d' = Some v) /\
       (dict_lookup (py "id") d = None ->
          dict_lookup (py "id") d' = Some (JStr (py "chatcmpl-" ++ take 24 uuid4_hex))) /\
       (dict_lookup (py "model") d = None ->
          dict_lookup (py "model") d' =
            Some (py_or (dict_get body (py "model") JNull) (JStr (py "local")))) /\
       (forall k : str, k <> py "id" -> k <> py "model" ->
          dict_lookup k d' = dict_lookup k d)) /\
  ((forall d : dict, j <> JDict d) -> fill_id_model uuid4_hex body j = j) /\
  fill_id_model uuid4_hex body (fill_id_model uuid4_hex body j) =
    fill_id_model uuid4_hex body j.
Proof.
  split_and!.
  - intros d ->. eexists. split; [reflexivity|]. split_and!.
    + intros k v Hk. by rewrite !dict_lookup_setdefault, Hk.
    + intros Hid. rewrite !dict_lookup_setdefault, Hid.
      by rewrite bool_decide_eq_true_2.
    + intros Hm. rewrite !dict_lookup_setdefault, Hm.
      rewrite (bool_decide_eq_false_2 (py "id" = py "model")) by (by vm_compute).
      by rewrite bool_decide_eq_true_2.
    + intros k Hid Hm. rewrite !dict_lookup_setdefault.
      destruct (dict_lookup k d); [done|].
      by rewrite !bool_decide_eq_false_2 by congruence.
  - intros H. destruct j; try done. by destruct (H fields).
  - destruct j as [| | | | | | |d]; try done. unfold fill_id_model.
    set (d1 := dict_setdefault d (py "id") _).
    set (d2 := dict_setdefault d1 (py "model") _).
    assert (Hid : exists x, dict_lookup (py "id") d2 = Some x).
    { unfold d2, d1. rewrite !dict_lookup_setdefault.
      destruct (dict_lookup (py "id") d); [by eexists|].
      rewrite bool_decide_eq_true_2 by done. by eexists. }
    assert (Hm : exists x, dict_lookup (py "model") d2 = Some x).
    { unfold d2. rewrite dict_lookup_setdefault.
      destruct (dict_lookup (py "model") d1); [by eexists|].
      rewrite bool_decide_eq_true_2 by done. by eexists. }
    destruct Hid as [x Hx], Hm as [y Hy].
    rewrite (dict_setdefault_present d2 (py "id") _ x) by done.
    by rewrite (dict_setdefault_present d2 (py "model") _ y) by done.
Qed.

(** X14.  In buffered mode an upstream answer whose status is outside
    400-599 but whose body cannot be used is answered with status 502 and
    the body [{"error": {"message": ...}}] carrying the message of the
    exception: the decoder's message when the body does not decode as JSON,
    the renderer's message when the decoded body, with [id] and [model]
    filled in, cannot be rendered.  The messages are taken to hold no
    surrogate. *)
Theorem buffered_unusable_body_is_502
    (post : dict -> bool -> outcome raised Response) (uuid4_hex : str)
    (render_error_message : json -> str)
    (body payload : dict) (r : Response) :
  want_stream body = false -> upstream_payload body = Ok payload ->
  post payload false = Ok r ->
  status_code r < 400 \/ 600 <= status_code r ->
  (forall msg : str,
     json_body r = DecodeError msg -> encodable msg = true ->
     chat_completions post uuid4_hex render_error_message body =
       JSONResponse 502 (JDict [(py "error", JDict [(py "message", JStr msg)])])) /\
  (forall j : json,
     json_body r = Decoded j ->
     has_nonfinite (fill_id_model uuid4_hex body j) = true \/
     has_surrogate (fill_id_model uuid4_hex body j) = true ->
     encodable (render_error_message (fill_id_model uuid4_hex body j)) = true ->
     chat_completions post uuid4_hex render_error_message body =
       JSONResponse 502
         (JDict [(py "error",
                  JDict [(py "message",
                          JStr (render_error_message (fill_id_model uuid4_hex body j)))])])).
Proof.
  intros Hws Hpayload Hpost Hstatus. unfold chat_completions, relay.
  rewrite Hpayload, Hws, Hpost, bind_Ok, raise_for_status_ok, bind_Ok by done.
  unfold response_json. split.
  - intros msg -> Hmsg. simpl. unfold error_body.
    by rewrite json_response_ok by (by rewrite render_error_body, Hmsg).
  - intros j -> Hbad Hmsg. rewrite bind_Ok. cbv zeta.
    assert (Hr : exists e, render (fill_id_model uuid4_hex body j) = Raise e).
    { unfold render. destruct Hbad as [-> | ->]; [by eexists|].
      destruct (has_nonfinite _); by eexists. }
    destruct Hr as [e Hr]. rewrite (json_response_raise _ _ e) by done. simpl.
    unfold error_body.
    by rewrite json_response_ok by (by rewrite render_error_body, Hmsg).
Qed.

(** X15.  An exception leaves the handler in two ways only.  When building
    the payload raises, because the normalizer and the composer run before
    the [try]: then the upstream plays no part.  And when the payload is
    built, exactly when an error reply, which is built inside an [except]
    clause, cannot be rendered: the reply to an upstream error or to a
    failed request, or the 502 reply to a body that could not be used.  A
    success never does. *)
Theorem unhandled_iff_payload_or_error_reply_raises
    (post : dict -> bool -> outcome raised Response) (uuid4_hex : str)
    (render_error_message : json -> str)
    (body : dict) (e : exc) :
  (upstream_payload body = Raise e ->
   chat_completions post uuid4_hex render_error_message body = Unhandled e) /\
  (forall payload : dict,
     upstream_payload body = Ok payload ->
     (chat_completions post uuid4_hex render_error_message body = Unhandled e <->
      exists content : json,
        render content = Raise e /\
        ((exists msg : str,
            (post payload (want_stream body) = Raise (OtherException msg) \/
             post payload (want_stream body) = Raise (HTTPError None msg)) /\
            content = JDict [(py "error", JDict [(py "message", JStr msg)])]) \/
         (exists (r : Response) (msg : str),
            (post payload (want_stream body) = Raise (HTTPError (Some r) msg) \/
             post payload (want_stream body) = Ok r /\ 400 <= status_code r < 600 /\
             msg = http_error_msg r) /\
            content = match json_body r with
                      | Decoded j => j
                      | DecodeError _ =>
                          JDict [(py "error", JDict [(py "message", JStr msg)])]
                      end) \/
         (exists (r : Response) (msg : str),
            want_stream body = false /\ post payload false = Ok r /\
            (status_code r < 400 \/ 600 <= status_code r) /\
            (json_body r = DecodeError msg \/
             exists j : json,
               json_body r = Decoded j /\
               render (fill_id_model uuid4_hex body j) <> Ok () /\
               msg = render_error_message (fill_id_model uuid4_hex body j)) /\
            content = JDict [(py "error", JDict [(py "message", JStr msg)])])))) /\
  (upstream_payload body = Raise e <->
   prepare_image_urls (images_in body) = Raise e \/
   exists urls : list str,
     prepare_image_urls (images_in body) = Ok urls /\
     ensure_multimodal_message (messages_of body) urls = Raise e).
Proof.
  split_and!.
  - unfold chat_completions. by intros ->.
  - intros payload Hpayload. unfold chat_completions. rewrite Hpayload.
    assert (Hesc : forall status content,
              escaping (json_response status content) = Unhandled e <->
              render content = Raise e).
    { intros status content. unfold json_response.
      destruct (render content) as [[]|e']; simpl; split; try done; by intros [= ->]. }
    destruct (post payload (want_stream body)) as [r|[[r'|] msg|msg]] eqn:Hpost.
    + (* the upstream answered *)
      destruct (decide (400 <= status_code r < 600)) as [Herr|Hok].
      * (* with an error status *)
        assert (Hrelay : relay post uuid4_hex render_error_message body payload =
                         Raise (HTTPError (Some r) (http_error_msg r))).
        { unfold relay. destruct (want_stream body);
            by rewrite Hpost, bind_Ok, raise_for_status_error by done. }
        rewrite Hrelay. unfold on_http_error. rewrite Hesc. split.
        -- intros Hr. eexists. split; [exact Hr|]. right. left.
           exists r, (http_error_msg r). split; [right; done|]. done.
        -- intros (content & Hr & [(msg & [H|H] & _) | [(r0 & msg & H & ->) | H]]);
             try done.
           ++ destruct H as [H | (H & _ & ->)]; [done|]. by injection H as <-.
           ++ destruct H as (r0 & msg & Hws & Hp & Hst & _).
              rewrite Hws in Hpost. rewrite Hpost in Hp. injection Hp as <-. lia.
      * (* with a status outside 400-599 *)
        assert (Hst : status_code r < 400 \/ 600 <= status_code r) by lia.
        unfold relay. destruct (want_stream body) eqn:Hws;
          rewrite Hpost, bind_Ok, raise_for_status_ok, bind_Ok by done.
        -- split; [done|].
           intros (content & _ & [(msg & [H|H] & _) | [(r0 & msg & H & _) | H]]);
             try done.
           ++ destruct H as [H | (H & Hr0 & _)]; [done|]. injection H as <-. lia.
           ++ by destruct H as (_ & _ & H & _).
        -- unfold response_json. destruct (json_body r) as [j|m] eqn:Hj.
           ++ rewrite bind_Ok. cbv zeta. unfold json_response.
              destruct (render (fill_id_model uuid4_hex body j)) as [[]|e'] eqn:Hr.
              ** simpl. split; [done|].
                 intros (content & _ & [(msg & [H|H] & _) | [(r0 & msg & H & _) | H]]);
                   try done.
                 --- destruct H as [H | (H & Hr0 & _)]; [done|]. injection H as <-. lia.
                 --- destruct H as (r0 & msg & _ & Hp & _ & [H | (j0 & H & Hne & _)] & _).
                     +++ injection Hp as <-. congruence.
                     +++ injection Hp as <-. rewrite Hj in H. injection H as <-. done.
              ** simpl. fold (json_response 502
                   (error_body (render_error_message (fill_id_model uuid4_hex body j)))).
                 rewrite Hesc. split.
                 --- intros Hc. eexists. split; [exact Hc|]. right. right.
                     exists r, (render_error_message (fill_id_model uuid4_hex body j)).
                     split_and!; try done. right. exists j. split_and!; try done.
                     by rewrite Hr.
                 --- intros (content & Hc & [(msg & [H|H] & _) | [(r0 & msg & H & _) | H]]);
                       try done.
                     +++ destruct H as [H | (H & Hr0 & _)]; [done|]. injection H as <-. lia.
                     +++ destruct H as (r0 & msg & _ & Hp & _ & [H | (j0 & H & _ & ->)] & ->).
                         *** injection Hp as <-. congruence.
                         *** injection Hp as <-. rewrite Hj in H. by injection H as <-.
           ++ simpl. fold (json_response 502 (error_body m)). rewrite Hesc. split.
              ** intros Hc. eexists. split; [exact Hc|]. right. right.
                 exists r, m. split_and!; try done. by left.
              ** intros (content & Hc & [(msg & [H|H] & _) | [(r0 & msg & H & _) | H]]);
                   try done.
                 --- destruct H as [H | (H & Hr0 & _)]; [done|]. injection H as <-. lia.
                 --- destruct H as (r0 & msg & _ & Hp & _ & [H | (j0 & H & _)] & ->).
                     +++ injection Hp as <-. rewrite Hj in H. by injection H as <-.
                     +++ injection Hp as <-. congruence.
    + (* the request raised [HTTPError] with a response *)
      assert (Hrelay : relay post uuid4_hex render_error_message body payload =
                       Raise (HTTPError (Some r') msg)).
      { unfold relay. destruct (want_stream body); by rewrite Hpost. }
      rewrite Hrelay. unfold on_http_error. rewrite Hesc. split.
      * intros Hr. eexists. split; [exact Hr|]. right. left.
        exists r', msg. split; [by left|done].
      * intros (content & Hr & [(m & [H|H] & _) | [(r0 & m & H & ->) | H]]); try done.
        -- destruct H as [H | (H & _)]; [|done]. by injection H as <- <-.
        -- destruct H as (r0 & m & Hws & Hp & _). rewrite Hws in Hpost. congruence.
    + (* the request raised [HTTPError] without a response *)
      assert (Hrelay : relay post uuid4_hex render_error_message body payload =
                       Raise (HTTPError None msg)).
      { unfold relay. destruct (want_stream body); by rewrite Hpost. }
      rewrite Hrelay. unfold on_http_error. rewrite Hesc. split.
      * intros Hr. eexists. split; [exact Hr|]. left. exists msg. split; [by right|done].
      * intros (content & Hr & [(m & [H|H] & ->) | [(r0 & m & H & _) | H]]); try done.
        -- by injection H as <-.
        -- destruct H as [H | (H & _)]; done.
        -- destruct H as (r0 & m & Hws & Hp & _). rewrite Hws in Hpost. congruence.
    + (* the request raised another exception *)
      assert (Hrelay : relay post uuid4_hex render_error_message body payload =
                       Raise (OtherException msg)).
      { unfold relay. destruct (want_stream body); by rewrite Hpost. }
      rewrite Hrelay, Hesc. split.
      * intros Hr. eexists. split; [exact Hr|]. left. exists msg. split; [by left|done].
      * intros (content & Hr & [(m & [H|H] & ->) | [(r0 & m & H & _) | H]]); try done.
        -- by injection H as <-.
        -- destruct H as [H | (H & _)]; done.
        -- destruct H as (r0 & m & Hws & Hp & _). rewrite Hws in Hpost. congruence.
  - unfold upstream_payload, messages_mm.
    destruct (prepare_image_urls (images_in body)) as [urls|e1].
    + rewrite bind_Ok.
      destruct (ensure_multimodal_message (messages_of body) urls) as [m|e2] eqn:He.
      * rewrite bind_Ok. split; [done|].
        intros [H | (urls' & H1 & H2)]; [done|]. injection H1 as <-. congruence.
      * unfold mbind, outcome_bind. split.
        -- intros [= ->]. right. by exists urls.
        -- intros [H | (urls' & H1 & H2)]; [done|]. injection H1 as <-. congruence.
    + unfold mbind, outcome_bind.
      split; [intros [= ->]; by left|].
      intros [[= ->] | (urls & H & _)]; done.
Qed.

(** X22.  What the handler does with a failure of the upstream, as far as
    the reply can be rendered.  An upstream status in 400-599 reaches the
    caller with the upstream's body when that decodes as JSON and can be
    rendered, and with [{"error": {"message": ...}}] carrying the message of
    the [HTTPError] when it does not decode; a request that raises before
    any response is there is answered with status 502 and
    [{"error": {"message": ...}}].  Each of these replies is built inside an
    [except] clause, so when its body cannot be rendered the renderer's
    exception leaves the handler. *)
Theorem upstream_failure_mapped_when_renderable
    (post : dict -> bool -> outcome raised Response) (uuid4_hex : str)
    (render_error_message : json -> str)
    (body payload : dict) :
  upstream_payload body = Ok payload ->
  (forall (r : Response) (j : json),
     post payload (want_stream body) = Ok r -> 400 <= status_code r < 600 ->
     json_body r = Decoded j ->
     (has_nonfinite j = false -> has_surrogate j = false ->
      chat_completions post uuid4_hex render_error_message body =
        JSONResponse (status_code r) j) /\
     (has_nonfinite j = true ->
      chat_completions post uuid4_hex render_error_message body = Unhandled ValueError) /\
     (has_nonfinite j = false -> has_surrogate j = true ->
      chat_completions post uuid4_hex render_error_message body =
        Unhandled UnicodeEncodeError)) /\
  (forall (r : Response) (msg : str),
     post payload (want_stream body) = Ok r -> 400 <= status_code r < 600 ->
     json_body r = DecodeError msg ->
     chat_completions post uuid4_hex render_error_message body =
       if encodable (http_error_msg r)
       then JSONResponse (status_code r)
              (JDict [(py "error", JDict [(py "message", JStr (http_error_msg r))])])
       else Unhandled UnicodeEncodeError) /\
  (forall msg : str,
     post payload (want_stream body) = Raise (OtherException msg) \/
     post payload (want_stream body) = Raise (HTTPError None msg) ->
     chat_completions post uuid4_hex render_error_message body =
       if encodable msg
       then JSONResponse 502 (JDict [(py "error", JDict [(py "message", JStr msg)])])
       else Unhandled UnicodeEncodeError).
Proof.
  intros Hpayload.
  assert (Herr : forall status msg,
            escaping (json_response status (error_body msg)) =
            if encodable msg then JSONResponse status (error_body msg)
            else Unhandled UnicodeEncodeError).
  { intros status msg. unfold json_response, error_body.
    rewrite render_error_body. by destruct (encodable msg). }
  assert (Hrelay : forall r, post payload (want_stream body) = Ok r ->
            400 <= status_code r < 600 ->
            chat_completions post uuid4_hex render_error_message body =
            on_http_error (Some r) (http_error_msg r)).
  { intros r Hpost Hstatus. unfold chat_completions, relay. rewrite Hpayload.
    destruct (want_stream body);
      by rewrite Hpost, bind_Ok, raise_for_status_error by done. }
  split_and!.
  - intros r j Hpost Hstatus Hj. rewrite (Hrelay r) by done.
    unfold on_http_error, json_response, render. rewrite Hj. split_and!.
    + by intros -> ->.
    + by intros ->.
    + by intros -> ->.
  - intros r msg Hpost Hstatus Hj. rewrite (Hrelay r) by done.
    unfold on_http_error. rewrite Hj. by rewrite Herr.
  - intros msg Hpost. unfold chat_completions, relay. rewrite Hpayload.
    destruct (want_stream body); destruct Hpost as [-> | ->]; simpl;
      unfold on_http_error; by rewrite Herr.
Qed.







Lemma dict_set_same (d : dict) (k : str) (v : json) :
  dict_lookup k d = Some v -> dict_set d k v = d.
Proof.
  induction d as [|[k' v'] d IH]; simpl; [done|].
  case_bool_decide; [by intros [= ->] | intros Hd; by rewrite IH].
Qed.

(** X16.  The payload sent upstream is the request body with its [messages]
    replaced by the composed messages and every other field, [images] and
    [allImages] included, passed through.  When the request carries no
    usable image, the messages are those of the request, and a request that
    has a truthy [messages] field is forwarded exactly as it came. *)
Theorem payload_passes_fields_through (body payload : dict) :
  upstream_payload body = Ok payload ->
  (forall k : str, k <> py "messages" -> dict_lookup k payload = dict_lookup k body) /\
  (exists m : json,
     messages_mm body = Ok m /\ dict_lookup (py "messages") payload = Some m) /\
  (prepare_image_urls (images_in body) = Ok [] ->
     dict_lookup (py "messages") payload = Some (messages_of body) /\
     (truthy (dict_get body (py "messages") JNull) = true -> payload = body)).
Proof.
  unfold upstream_payload. destruct (messages_mm body) as [m|e] eqn:Hm; [|done].
  rewrite bind_Ok. intros [= <-]. split_and!.
  - intros k Hk. by apply dict_lookup_set_ne.
  - exists m. by rewrite dict_lookup_set_eq.
  - intros Hnone. unfold messages_mm in Hm. rewrite Hnone, bind_Ok in Hm.
    injection Hm as <-. split; [by rewrite dict_lookup_set_eq|].
    intros Ht. unfold messages_of, py_or. rewrite Ht. unfold dict_get in *.
    destruct (dict_lookup (py "messages") body) as [v|] eqn:Hv; [|done].
    by apply dict_set_same.
Qed.

(** X17.  A streamed reply carries the upstream's [Content-Type] when the
    upstream sent a non-empty one and [text/event-stream] otherwise; whether
    the upstream's body would decode as JSON plays no part. *)
Theorem streamed_media_type
    (post : dict -> bool -> outcome raised Response) (uuid4_hex : str)
    (render_error_message : json -> str)
    (body payload : dict) (r : Response) :
  want_stream body = true -> upstream_payload body = Ok payload ->
  post payload true = Ok r ->
  status_code r < 400 \/ 600 <= status_code r ->
  chat_completions post uuid4_hex render_error_message body =
    StreamingResponse 200
      match content_type r with
      | Some (c :: t) => c :: t
      | _ => py "text/event-stream"
      end
      (gen (iter_content r)).
Proof.
  intros Hws Hpayload Hpost Hstatus. unfold chat_completions, relay.
  rewrite Hpayload, Hws, Hpost, bind_Ok, raise_for_status_ok, bind_Ok by done.
  by destruct (content_type r) as [[|c t]|].
Qed.

(** ** Configuration, session and model listing *)

Lemma lstrip_chars_split (chars s : str) :
  exists pre : str,
    s = pre ++ lstrip_chars chars s /\ Forall (fun c => c ∈ chars) pre /\
    forall (c : N) (t : str), lstrip_chars chars s = c :: t -> c ∉ chars.
Proof.
  induction s as [|c s (pre & Hs & Hpre & Hhead)]; simpl.
  - exists []. split_and!; [done | constructor | done].
  - case_bool_decide as Hc.
    + exists (c :: pre). split_and!; [by rewrite <- app_comm_cons, <- Hs | by constructor | done].
    + exists []. split_and!; [done | constructor |]. by intros c' t [= <- _].
Qed.

Lemma rstrip_chars_split (chars s : str) :
  exists suf : str,
    s = rstrip_chars chars s ++ suf /\ Forall (fun c => c ∈ chars) suf /\
    forall (t : str) (c : N), rstrip_chars chars s = t ++ [c] -> c ∉ chars.
Proof.
  unfold rstrip_chars.
  destruct (lstrip_chars_split chars (reverse s)) as (pre & Hs & Hpre & Hhead).
  exists (reverse pre). split_and!.
  - rewrite <- reverse_app, <- Hs. by rewrite reverse_involutive.
  - by apply Forall_reverse.
  - intros t c Ht. apply (Hhead c (reverse t)).
    apply (f_equal reverse) in Ht. rewrite reverse_involutive in Ht.
    by rewrite Ht, reverse_app.
Qed.

(** X18.  The configured base URL loses its trailing slashes and nothing
    else, so the endpoint URL is the base, as configured or defaulted,
    without trailing slashes, followed by [/chat/completions]. *)
Theorem api_base_without_trailing_slash (env : option str) :
  exists n : nat,
    default (py "http://localhost:1234/v1") env =
      LMSTUDIO_API_BASE env ++ replicate n 47%N /\
    (forall t : str, LMSTUDIO_API_BASE env <> t ++ py "/") /\
    chat_completions_url (LMSTUDIO_API_BASE env) =
      LMSTUDIO_API_BASE env ++ py "/chat/completions".
Proof.
  unfold LMSTUDIO_API_BASE.
  destruct (rstrip_chars_split (py "/") (default (py "http://localhost:1234/v1") env))
    as (suf & Hs & Hsuf & Hlast).
  exists (length suf). split_and!.
  - rewrite Hs at 1. f_equal.
    clear -Hsuf. induction Hsuf as [|c suf Hc _ IH]; [done|].
    apply list_elem_of_singleton in Hc as ->. simpl. by rewrite <- IH.
  - intros t Ht. apply (Hlast t 47%N Ht). by apply list_elem_of_singleton.
  - done.
Qed.

(** X19.  The session sends the three fixed headers always, and an
    [Authorization] header exactly when the API key variable is set to
    something other than whitespace; its value is [Bearer] followed by the
    key with surrounding whitespace removed. *)
Theorem authorization_header_iff_key (env : option str) :
  dict_lookup (py "Content-Type") (_session (LMSTUDIO_API_KEY env))
    = Some (JStr (py "application/json")) /\
  dict_lookup (py "Accept") (_session (LMSTUDIO_API_KEY env))
    = Some (JStr (py "application/json")) /\
  dict_lookup (py "User-Agent") (_session (LMSTUDIO_API_KEY env))
    = Some (JStr (py "LMStudio-Vision-Proxy/1.0")) /\
  (dict_lookup (py "Authorization") (_session (LMSTUDIO_API_KEY env)) = None <->
   env = None \/ exists e : str, env = Some e /\ Forall (fun c => isspace c = true) e) /\
  (forall e : str, env = Some e -> ~ Forall (fun c => isspace c = true) e ->
     dict_lookup (py "Authorization") (_session (LMSTUDIO_API_KEY env))
       = Some (JStr (py "Bearer " ++ strip e))).
Proof.
  unfold _session, LMSTUDIO_API_KEY, truthy.
  destruct (bool_decide (strip (default [] env) = [])) eqn:E; simpl negb; cbv iota.
  - apply bool_decide_eq_true in E. split_and!; try done.
    + split; [|done]. intros _. destruct env as [e|]; [|by left].
      right. exists e. split; [done|]. by apply strip_nil_iff.
    + intros e -> He. exfalso. apply He. by apply strip_nil_iff.
  - apply bool_decide_eq_false in E. split_and!; try done.
    + split; [done|]. intros [-> | (e & -> & He)]; exfalso; apply E; [done|].
      by apply strip_nil_iff.
    + by intros e -> _.
Qed.

Lemma encodable_fallback_note (msg : str) :
  encodable (py "fallback: " ++ msg) = encodable msg.
Proof.
  unfold encodable. rewrite forallb_app.
  match goal with
  | |- context [forallb ?f (py ?s)] => change (forallb f (py s)) with true
  end.
  done.
Qed.

Lemma render_fallback_listing (model_name msg : str) :
  render (JDict [(py "object", JStr (py "list"));
                 (py "data", JList [JDict [(py "id", JStr model_name);
                                           (py "object", JStr (py "model"))]]);
                 (py "note", JStr (py "fallback: " ++ msg))]) =
  if encodable model_name && encodable msg then Ok () else Raise UnicodeEncodeError.
Proof.
  unfold render.
  match goal with
  | |- context [has_nonfinite ?x] => change (has_nonfinite x) with false
  end.
  cbv iota. cbn [has_surrogate existsb fst snd].
  repeat match goal with
  | |- context [encodable (py ?s)] => change (encodable (py s)) with true
  end.
  rewrite encodable_fallback_note.
  by destruct (encodable model_name), (encodable msg).
Qed.

(** X20.  The model listing answers with the upstream's decoded body under
    status 200 when the upstream answers outside 400-599 with JSON that can
    be rendered.  In every other case, an HTTP error status, a body that
    does not decode or cannot be rendered, or a request that raises, it
    builds the one-entry fallback listing that names the configured model
    and notes the failure's message, again under status 200.  The fallback
    is built inside the [except] clause: when the model name or the message
    holds a surrogate, rendering raises and the exception leaves the
    endpoint. *)
Theorem list_models_answers_200_or_escapes
    (get_models : outcome raised Response) (render_error_message : json -> str)
    (model_name : str) :
  (forall (r : Response) (j : json),
     get_models = Ok r -> status_code r < 400 \/ 600 <= status_code r ->
     json_body r = Decoded j ->
     has_nonfinite j = false -> has_surrogate j = false ->
     list_models get_models render_error_message model_name = JSONResponse 200 j) /\
  (forall msg : str,
     (exists response : option Response, get_models = Raise (HTTPError response msg)) \/
     get_models = Raise (OtherException msg) \/
     (exists r : Response,
        get_models = Ok r /\
        (400 <= status_code r < 600 /\ msg = http_error_msg r \/
         (status_code r < 400 \/ 600 <= status_code r) /\
         (json_body r = DecodeError msg \/
          exists j : json,
            json_body r = Decoded j /\
            (has_nonfinite j = true \/ has_surrogate j = true) /\
            msg = render_error_message j))) ->
     list_models get_models render_error_message model_name =
       if encodable model_name && encodable msg
       then JSONResponse 200
              (JDict [(py "object", JStr (py "list"));
                      (py "data", JList [JDict [(py "id", JStr model_name);
                                                (py "object", JStr (py "model"))]]);
                      (py "note", JStr (py "fallback: " ++ msg))])
       else Unhandled UnicodeEncodeError).
Proof.
  assert (Hfall : forall msg,
            escaping (json_response 200 (fallback_listing model_name msg)) =
            if encodable model_name && encodable msg
            then JSONResponse 200 (fallback_listing model_name msg)
            else Unhandled UnicodeEncodeError).
  { intros msg. unfold json_response, fallback_listing.
    rewrite render_fallback_listing. by destruct (_ && _). }
  unfold list_models. split.
  - intros r j -> Hs Hj Hnf Hsur. rewrite bind_Ok, raise_for_status_ok, bind_Ok by done.
    unfold response_json. rewrite Hj, bind_Ok.
    by rewrite json_response_ok by (by apply render_ok).
  - intros msg [[response ->] | [-> | (r & -> & H)]].
    + simpl. by rewrite Hfall.
    + simpl. by rewrite Hfall.
    + rewrite bind_Ok. destruct H as [[Hs ->] | [Hs H]].
      * rewrite raise_for_status_error by done. simpl. by rewrite Hfall.
      * rewrite raise_for_status_ok, bind_Ok by done. unfold response_json.
        destruct H as [-> | (j & -> & Hbad & ->)].
        -- simpl. by rewrite Hfall.
        -- rewrite bind_Ok.
           assert (Hr : exists e, render j = Raise e).
           { unfold render. destruct Hbad as [-> | ->]; [by eexists|].
             destruct (has_nonfinite _); by eexists. }
           destruct Hr as [e Hr]. rewrite (json_response_raise _ _ e) by done.
           simpl. by rewrite Hfall.
Qed.

(** * The further properties at concrete inputs *)

Lemma normalized_urls_have_url_form_witness :
  Forall url_form [py "data:image/png;base64,QUJD"; url_U].
Proof.
  apply (normalized_urls_have_url_form (JList [JStr (py "QUJD"); JStr url_U])).
  vm_compute. reflexivity.
Defined.

Lemma normalizing_again_changes_nothing_witness :
  prepare_image_urls (JList (JStr <$> [py "data:image/png;base64,QUJD"; url_U])) =
    Ok [py "data:image/png;base64,QUJD"; url_U].
Proof.
  apply (normalizing_again_changes_nothing (JList [JStr (py "QUJD"); JStr url_U])).
  vm_compute. reflexivity.
Defined.

Lemma dict_descriptor_normalized_witness :
  prepare_image_urls (JList [JDict [(py "id", JStr (py "a")); (py "data", JStr url_U)]]) =
    Ok [py "data:image/png;base64," ++ url_U] /\
  prepare_image_urls (JList [JDict [(py "id", JStr (py "a"))]]) = Ok [].
Proof.
  split.
  - refine (proj2 (proj1 (dict_descriptor_normalized
                            [(py "id", JStr (py "a")); (py "data", JStr url_U)])
                     url_U _ _) _).
    + reflexivity.
    + discriminate.
    + intros [[k Hk] _]. discriminate Hk.
  - refine (proj2 (dict_descriptor_normalized [(py "id", JStr (py "a"))]) _).
    left. reflexivity.
Defined.

Lemma normalizer_raises_only_on_scalars_witness :
  prepare_image_urls (JInt 5) = Raise TypeError /\ prepare_image_urls JNull = Ok [].
Proof.
  split.
  - refine (proj1 (normalizer_raises_only_on_scalars (JInt 5)) _). reflexivity.
  - refine (proj2 (proj2 (normalizer_raises_only_on_scalars JNull)) _). reflexivity.
Defined.

Lemma at_most_one_url_per_descriptor_witness :
  (length [py "data:image/png;base64,QUJD"] <= length [JStr (py "QUJD"); JNull; JStr (py "QUJD")])%nat.
Proof.
  apply (at_most_one_url_per_descriptor [JStr (py "QUJD"); JNull; JStr (py "QUJD")]).
  vm_compute. reflexivity.
Defined.

Lemma odd_content_is_replaced_witness :
  ensure_multimodal_message
    (JList ([sys_msg] ++ JDict [(py "role", JStr (py "user")); (py "content", JNull)] :: []))
    [url_U] =
  Ok (JList ([sys_msg] ++
        JDict (dict_set [(py "role", JStr (py "user")); (py "content", JNull)]
                 (py "content") (JList (image_block <$> [url_U]))) :: [])).
Proof.
  apply (odd_content_is_replaced [sys_msg] []
           [(py "role", JStr (py "user")); (py "content", JNull)] [url_U]).
  - discriminate.
  - reflexivity.
  - constructor.
  - right. exists JNull. split; [reflexivity|]. split; discriminate.
Defined.

Lemma composer_total_on_dicts_witness :
  exists ms' : list json,
    ensure_multimodal_message (JList [sys_msg; describe_msg]) [url_U] = Ok (JList ms') /\
    Forall (fun m => is_message m = true) ms' /\
    length ms' = if existsb has_role_user [sys_msg; describe_msg]
                 then length [sys_msg; describe_msg]
                 else S (length [sys_msg; describe_msg]).
Proof.
  apply (composer_total_on_dicts [sys_msg; describe_msg] [url_U]).
  - discriminate.
  - repeat constructor.
Defined.

Lemma composer_raises_iff_witness :
  (forall e : exc,
     ensure_multimodal_message (JList [describe_msg; JInt 7]) [url_U] = Raise e ->
     e = AttributeError) /\
  (ensure_multimodal_message (JList [describe_msg; JInt 7]) [url_U] = Raise AttributeError <->
   exists (pre post : list json) (x : json),
     [describe_msg; JInt 7] = pre ++ x :: post /\ is_message x = false /\
     Forall other_message post).
Proof.
  apply (composer_raises_iff [describe_msg; JInt 7] [url_U]). discriminate.
Defined.

Lemma composing_twice_accumulates_witness :
  ensure_multimodal_message
    (JList ([sys_msg] ++ [JDict [(py "role", JStr (py "user"));
                                 (py "content", JList (image_block <$> [url_U]))]]))
    [py "http://host/v.png"]
  = ensure_multimodal_message (JList [sys_msg]) ([url_U] ++ [py "http://host/v.png"]).
Proof.
  apply (composing_twice_accumulates [sys_msg] [url_U] [py "http://host/v.png"]).
  reflexivity.
Defined.

Lemma result_has_user_turn_with_images_witness :
  exists (ms' : list json) (i : nat) (d' : dict) (blocks : list json),
    JList [sys_msg; JDict [(py "role", JStr (py "user"));
                           (py "content", JList [image_block url_U])]] = JList ms' /\
    find_last_user (JList ms') (length ms') = Ok (Some i) /\
    ms' !! i = Some (JDict d') /\
    dict_lookup (py "content") d' = Some (JList (blocks ++ (image_block <$> [url_U]))).
Proof.
  apply (result_has_user_turn_with_images [sys_msg] [url_U]).
  - discriminate.
  - reflexivity.
Defined.

Lemma filled_body_has_id_and_model_witness :
  exists d' : dict,
    fill_id_model hex32 plain_body (JDict [(py "id", JNull)]) = JDict d' /\
    dict_lookup (py "id") d' = Some JNull /\
    dict_lookup (py "model") d' = Some (JStr (py "m")).
Proof.
  destruct (proj1 (filled_body_has_id_and_model hex32 plain_body (JDict [(py "id", JNull)]))
              [(py "id", JNull)] eq_refl)
    as (d' & Hfill & Hkeep & _ & Hmodel & _).
  exists d'. split; [exact Hfill|]. split.
  - apply Hkeep. reflexivity.
  - rewrite Hmodel; reflexivity.
Defined.

Lemma buffered_unusable_body_is_502_witness :
  chat_completions
    (answers {| status_code := 200; http_error_msg := [];
                content_type := Some (py "text/html");
                json_body := DecodeError (py "Expecting value");
                iter_content := [] |})
    hex32 render_message plain_body
  = JSONResponse 502 (JDict [(py "error", JDict [(py "message", JStr (py "Expecting value"))])]).
Proof.
  refine (proj1 (buffered_unusable_body_is_502 _ hex32 render_message plain_body plain_body
                   {| status_code := 200; http_error_msg := [];
                      content_type := Some (py "text/html");
                      json_body := DecodeError (py "Expecting value");
                      iter_content := [] |} _ _ _ _)
                (py "Expecting value") _ _).
  - reflexivity.
  - vm_compute. reflexivity.
  - reflexivity.
  - left. simpl. lia.
  - reflexivity.
  - vm_compute. reflexivity.
Defined.

Lemma unhandled_iff_payload_or_error_reply_raises_witness :
  chat_completions (answers created) hex32 render_message [(py "images", JBool true)] =
    Unhandled TypeError.
Proof.
  refine (proj1 (unhandled_iff_payload_or_error_reply_raises (answers created) hex32
                   render_message [(py "images", JBool true)] TypeError) _).
  reflexivity.
Defined.

Lemma upstream_failure_mapped_when_renderable_witness :
  chat_completions (answers too_many) hex32 render_message plain_body =
    JSONResponse 429 (JDict [(py "error", JDict [(py "message", JStr (py "slow down"))])]) /\
  chat_completions (fun _ _ => Raise (OtherException (py "Connection refused")))
    hex32 render_message plain_body =
    JSONResponse 502
      (JDict [(py "error", JDict [(py "message", JStr (py "Connection refused"))])]).
Proof.
  split.
  - refine (proj1 (proj1 (upstream_failure_mapped_when_renderable (answers too_many) hex32
                            render_message plain_body plain_body _)
                     too_many _ _ _ _) _ _).
    + vm_compute. reflexivity.
    + reflexivity.
    + simpl. lia.
    + reflexivity.
    + vm_compute. reflexivity.
    + vm_compute. reflexivity.
  - exact (proj2 (proj2 (upstream_failure_mapped_when_renderable
                           (fun _ _ => Raise (OtherException (py "Connection refused")))
                           hex32 render_message plain_body plain_body eq_refl))
             (py "Connection refused") (or_introl eq_refl)).
Defined.

Lemma payload_passes_fields_through_witness :
  dict_lookup (py "images") both_fields_payload = dict_lookup (py "images") both_fields_body /\
  dict_lookup (py "allImages") both_fields_payload
    = dict_lookup (py "allImages") both_fields_body /\
  exists m : json,
    messages_mm both_fields_body = Ok m /\
    dict_lookup (py "messages") both_fields_payload = Some m.
Proof.
  destruct (payload_passes_fields_through both_fields_body both_fields_payload)
    as (Hother & Hmessages & _).
  - vm_compute. reflexivity.
  - split; [|split].
    + apply Hother. discriminate.
    + apply Hother. discriminate.
    + exact Hmessages.
Defined.

Lemma streamed_media_type_witness :
  chat_completions (answers abc_stream) hex32 render_message stream_body =
    StreamingResponse 200
      match content_type abc_stream with
      | Some (c :: t) => c :: t
      | _ => py "text/event-stream"
      end
      (gen (iter_content abc_stream)).
Proof.
  apply (streamed_media_type (answers abc_stream) hex32 render_message
           stream_body stream_body abc_stream).
  - reflexivity.
  - vm_compute. reflexivity.
  - reflexivity.
  - left. simpl. lia.
Defined.

Lemma authorization_header_iff_key_witness :
  dict_lookup (py "Authorization") (_session (LMSTUDIO_API_KEY (Some (py " sk-1 "))))
    = Some (JStr (py "Bearer " ++ strip (py " sk-1 "))).
Proof.
  refine (proj2 (proj2 (proj2 (proj2 (authorization_header_iff_key (Some (py " sk-1 "))))))
            (py " sk-1 ") eq_refl _).
  intros H. apply Forall_cons_1 in H as [_ H]. apply Forall_cons_1 in H as [H _].
  discriminate H.
Defined.

Lemma list_models_answers_200_or_escapes_witness :
  list_models (Ok too_many) render_message (py "lmstudio-proxy") =
    JSONResponse 200
      (JDict [(py "object", JStr (py "list"));
              (py "data", JList [JDict [(py "id", JStr (py "lmstudio-proxy"));
                                        (py "object", JStr (py "model"))]]);
              (py "note",
               JStr (py "fallback: " ++ py "429 Client Error: Too Many Requests for url: u"))]) /\
  list_models (Ok ok_surrogate) render_message (py "lmstudio-proxy") =
    JSONResponse 200
      (JDict [(py "object", JStr (py "list"));
              (py "data", JList [JDict [(py "id", JStr (py "lmstudio-proxy"));
                                        (py "object", JStr (py "model"))]]);
              (py "note",
               JStr (py "fallback: " ++
                     py "'utf-8' codec can't encode character: surrogates not allowed"))]) /\
  list_models (Ok created) render_message [56832%N] = JSONResponse 200
    (JDict [(py "object", JStr (py "chat.completion"))]) /\
  list_models (Ok too_many) render_message [56832%N] = Unhandled UnicodeEncodeError.
Proof.
  split_and!.
  - refine (proj2 (list_models_answers_200_or_escapes (Ok too_many) render_message
                     (py "lmstudio-proxy"))
              (py "429 Client Error: Too Many Requests for url: u") _).
    right. right. exists too_many. split; [reflexivity|]. left. split; [simpl; lia|reflexivity].
  - refine (proj2 (list_models_answers_200_or_escapes (Ok ok_surrogate) render_message
                     (py "lmstudio-proxy"))
              (py "'utf-8' codec can't encode character: surrogates not allowed") _).
    right. right. exists ok_surrogate. split; [reflexivity|]. right.
    split; [left; simpl; lia|]. right. eexists. split; [reflexivity|].
    split; [right; vm_compute; reflexivity | vm_compute; reflexivity].
  - refine (proj1 (list_models_answers_200_or_escapes (Ok created) render_message [56832%N])
              created _ eq_refl _ eq_refl _ _).
    + left. simpl. lia.
    + vm_compute. reflexivity.
    + vm_compute. reflexivity.
  - refine (proj2 (list_models_answers_200_or_escapes (Ok too_many) render_message [56832%N])
              (py "429 Client Error: Too Many Requests for url: u") _).
    right. right. exists too_many. split; [reflexivity|]. left. split; [simpl; lia|reflexivity].
Defined.

Lemma store_model_refines_witness :
  exists (r : Heap.val) (h' : Heap.heap) (j' : json),
    Heap.ensure_multimodal_message (Heap.VRef 1%nat) [url_U] describe_store = Ok (r, h') /\
    ensure_multimodal_message (JList [describe_msg]) [url_U] = Ok j' /\
    Heap.denote (2 + 5) h' r = Some j'.
Proof.
  apply (store_model_refines 2 describe_store 1%nat [Heap.VRef 0%nat]
           (JList [describe_msg]) [url_U]).
  - reflexivity.
  - repeat constructor. eexists 0%nat, _. split; reflexivity.
  - reflexivity.
Defined.
